(** * manage_repos.py: provisioning of organisation repositories

    A shallow embedding of [src/manage_repos.py] and the properties of its
    batch run.  The script reads [repos.json], and for every entry whose
    status is "need-to-create" creates the repository, adds the
    collaborators, uploads the pipeline file and sets two encrypted secrets;
    it then marks the entry "created" and finally rewrites [repos.json].

    Layout:
    - [Text]        Python [str] and [bytes], UTF-8, base64;
    - [Py]          exceptions, requests and responses, the entries;
    - [Script]      the environment, the monad, and the functions of the
                    script in source order;
    - [Demo]        concrete environments;
    - [TextFacts], [ScriptFacts]  lemmas;
    - [Properties]  the properties of [encrypt] and of the run;
    - [Runs]        the properties on concrete runs;
    - [Coverage]    more of the script: single functions, the plan of an
                    entry, runs that raise, runs that return, tokens that
                    cannot be sent;
    - [CoverageRuns]  these on concrete runs.

    The HTTP library is modelled call by call: one call of [requests.post],
    [requests.put] or [requests.get] is one event of the log, with the
    response it returned or the exception it raised, whatever the library
    did on the wire to carry it out. *)

From Stdlib Require Import NArith ZArith Lia ZifyNat ZifyN String Ascii.
From Stdlib Require Import Strings.Byte.
From stdpp Require Import base option list sorting.
From Equations Require Import Equations.

Set Default Proof Using "Type".

(** [lia] with division and remainder by constants. *)
Ltac Zify.zify_post_hook ::= Z.div_mod_to_equations.

(* ===================================================================== *)
(** * Text and bytes *)
(* ===================================================================== *)

Module Text.
Local Open Scope N_scope.

(** A Python [str] is a sequence of code points; [len] is its length.
    [bytes] is a sequence of octets. *)
Definition codepoint := N.
Definition str := list codepoint.
Definition bytes := list byte.

(** A literal of the source text (ASCII only). *)
Definition lit (s : string) : str :=
  List.map N_of_ascii (list_ascii_of_string s).

Definition byte_of_N (n : N) : byte := default x00 (Byte.of_N n).

(** ** [str.encode("utf-8")] *)

(** One code point.  Surrogates (which [json.load] and [os.getenv] can
    produce) are not encodable: Python raises [UnicodeEncodeError]. *)
Definition utf8_encode_cp (c : codepoint) : option bytes :=
  if c <? 0x80 then Some [byte_of_N c]
  else if c <? 0x800 then
    Some [byte_of_N (0xC0 + c / 64); byte_of_N (0x80 + c mod 64)]
  else if c <? 0x10000 then
    if (0xD800 <=? c) && (c <? 0xE000) then None
    else Some [byte_of_N (0xE0 + c / 4096);
               byte_of_N (0x80 + (c / 64) mod 64);
               byte_of_N (0x80 + c mod 64)]
  else if c <? 0x110000 then
    Some [byte_of_N (0xF0 + c / 262144);
          byte_of_N (0x80 + (c / 4096) mod 64);
          byte_of_N (0x80 + (c / 64) mod 64);
          byte_of_N (0x80 + c mod 64)]
  else None.

Fixpoint utf8_encode (s : str) : option bytes :=
  match s with
  | [] => Some []
  | c :: r =>
      match utf8_encode_cp c, utf8_encode r with
      | Some b, Some br => Some (b ++ br)
      | _, _ => None
      end
  end.

(** ** [bytes.decode("utf-8")] (strict) *)

Definition is_cont (b : byte) : bool :=
  (0x80 <=? Byte.to_N b) && (Byte.to_N b <? 0xC0).

Definition cont (b : byte) : N := Byte.to_N b - 0x80.

Fixpoint utf8_decode (bs : bytes) : option str :=
  match bs with
  | [] => Some []
  | b0 :: r0 =>
      let n0 := Byte.to_N b0 in
      if n0 <? 0x80 then cons n0 <$> utf8_decode r0
      else if n0 <? 0xC0 then None
      else if n0 <? 0xE0 then
        match r0 with
        | b1 :: r1 =>
            let c := (n0 - 0xC0) * 64 + cont b1 in
            if is_cont b1 && (0x80 <=? c)
            then cons c <$> utf8_decode r1 else None
        | _ => None
        end
      else if n0 <? 0xF0 then
        match r0 with
        | b1 :: b2 :: r2 =>
            let c := (n0 - 0xE0) * 4096 + cont b1 * 64 + cont b2 in
            if is_cont b1 && is_cont b2 && (0x800 <=? c)
               && negb ((0xD800 <=? c) && (c <? 0xE000))
            then cons c <$> utf8_decode r2 else None
        | _ => None
        end
      else if n0 <? 0xF8 then
        match r0 with
        | b1 :: b2 :: b3 :: r3 =>
            let c := (n0 - 0xF0) * 262144 + cont b1 * 4096
                     + cont b2 * 64 + cont b3 in
            if is_cont b1 && is_cont b2 && is_cont b3
               && (0x10000 <=? c) && (c <? 0x110000)
            then cons c <$> utf8_decode r3 else None
        | _ => None
        end
      else None
  end.

(** ** [base64.b64encode] (RFC 4648, standard alphabet, with padding) *)

Definition b64_char (n : N) : byte :=
  if n <? 26 then byte_of_N (65 + n)              (* A-Z *)
  else if n <? 52 then byte_of_N (97 + (n - 26))  (* a-z *)
  else if n <? 62 then byte_of_N (48 + (n - 52))  (* 0-9 *)
  else if n =? 62 then byte_of_N 43               (* + *)
  else byte_of_N 47.                              (* / *)

Definition b64_pad : byte := byte_of_N 61.        (* = *)

Fixpoint b64encode (bs : bytes) : bytes :=
  match bs with
  | [] => []
  | [a] =>
      let a := Byte.to_N a in
      [b64_char (a / 4); b64_char ((a mod 4) * 16); b64_pad; b64_pad]
  | [a; b] =>
      let a := Byte.to_N a in
      let b := Byte.to_N b in
      [b64_char (a / 4); b64_char ((a mod 4) * 16 + b / 16);
       b64_char ((b mod 16) * 4); b64_pad]
  | a :: b :: c :: r =>
      let a := Byte.to_N a in
      let b := Byte.to_N b in
      let c := Byte.to_N c in
      b64_char (a / 4) :: b64_char ((a mod 4) * 16 + b / 16)
      :: b64_char ((b mod 16) * 4 + c / 64) :: b64_char (c mod 64)
      :: b64encode r
  end.

(** ** [base64.b64decode] in its default, non-validating mode

    The decoder of the C library behind [base64.b64decode(s)]: characters
    outside the alphabet are skipped, a complete pad sequence ends the
    input, and a trailing incomplete quad is an error ([binascii.Error]).
    [quad_pos], [leftchar] and [pads] are the decoder's registers. *)

Definition b64_index (b : byte) : option N :=
  let n := Byte.to_N b in
  if (65 <=? n) && (n <? 91) then Some (n - 65)
  else if (97 <=? n) && (n <? 123) then Some (n - 97 + 26)
  else if (48 <=? n) && (n <? 58) then Some (n - 48 + 52)
  else if n =? 43 then Some 62
  else if n =? 47 then Some 63
  else None.

Fixpoint a2b_loop (data : bytes) (quad_pos : nat) (leftchar : N) (pads : nat)
  : option bytes :=
  match data with
  | [] => if Nat.eqb quad_pos 0 then Some [] else None
  | this_ch :: rest =>
      if Byte.eqb this_ch b64_pad then
        if Nat.leb 2 quad_pos then
          if Nat.leb 4 (quad_pos + S pads) then Some []
          else a2b_loop rest quad_pos leftchar (S pads)
        else a2b_loop rest quad_pos leftchar pads
      else
        match b64_index this_ch with
        | None => a2b_loop rest quad_pos leftchar pads
        | Some v =>
            match quad_pos with
            | 0%nat => a2b_loop rest 1 v 0
            | 1%nat =>
                cons (byte_of_N ((leftchar * 4 + v / 16) mod 256))
                  <$> a2b_loop rest 2 (v mod 16) 0
            | 2%nat =>
                cons (byte_of_N ((leftchar * 16 + v / 4) mod 256))
                  <$> a2b_loop rest 3 (v mod 4) 0
            | _ =>
                cons (byte_of_N ((leftchar * 64 + v) mod 256))
                  <$> a2b_loop rest 0 0 0
            end
        end
  end.

Definition b64decode (data : bytes) : option bytes := a2b_loop data 0 0 0.

(** Octets that are all below 128, that is, ASCII text. *)
Definition ascii_bytes (bs : bytes) : Prop :=
  Forall (λ b, Byte.to_N b < 0x80) bs.

End Text.

(* ===================================================================== *)
(** * Exceptions, requests and the data model *)
(* ===================================================================== *)

Module Py.
Import Text.

(** The exceptions the script can meet.  [HTTPError] is what
    [raise_for_status] raises, [ConnectionError] stands for every exception
    of the HTTP library for a call that fails on its way (a URL the library
    refuses, a failure of the transport), [InvalidHeader] is what the HTTP
    library raises for a header it refuses to prepare,
    [RequestsJSONDecodeError] is the one [Response.json] raises in current
    releases of the HTTP library; these four are subclasses of
    [requests.exceptions.RequestException], the others are not.  [BinasciiError] and [NaclValueError] are the two
    errors of a malformed public key: not base64, or not 32 octets. *)
Inductive exn : Type :=
  | HTTPError (status_code : N)
  | ConnectionError
  | InvalidHeader
  | RequestsJSONDecodeError
  | JSONDecodeError
  | KeyError (key : str)
  | TypeError
  | ValueError
  | FileNotFoundError
  | AttributeError
  | UnicodeEncodeError
  | UnicodeDecodeError
  | BinasciiError
  | NaclValueError.

(** [isinstance(e, requests.exceptions.RequestException)] *)
Definition is_request_exception (e : exn) : bool :=
  match e with
  | HTTPError _ | ConnectionError | InvalidHeader
  | RequestsJSONDecodeError => true
  | _ => false
  end.

Inductive result (A : Type) : Type :=
  | Ok (a : A)
  | Raise (e : exn).
Arguments Ok {A} a.
Arguments Raise {A} e.

(** ** HTTP requests and responses *)

(** What the script hands to the HTTP library in one call. *)
Inductive meth : Type := GET | POST | PUT.

Inductive jvalue : Type :=
  | JStr (s : str)
  | JBool (b : bool).

Definition jobject := list (str * jvalue).

Record request : Type := Request {
  method : meth;
  url : str;
  headers : list (str * str);
  json : option jobject
}.

(** The JSON document of the public-key endpoint, as far as the script
    reads it: an object that may have a "key" and a "key_id". *)
Record public_key_info : Type := PublicKeyInfo {
  key : option str;
  key_id : option str
}.

(** What the transport brings back for a request, when it does not fail:
    the status code and the body of the response, of which [Response.json]
    yields a document or raises.  (The HTTP library follows redirects on
    its own; the response is the last one.) *)
Definition answer : Type := N * result public_key_info.

(** What a call of the HTTP library comes to: the call raises [e] and
    there is no response, or it returns a response with a status code and a
    body. *)
Inductive response : Type :=
  | NoResponse (e : exn)
  | Response (status_code : N) (body : result public_key_info).

(** The call failed: it raised, or [raise_for_status] raises (the status
    code is a client or server error). *)
Definition is_error_status (code : N) : bool :=
  ((400 <=? code) && (code <? 600))%N.

Definition failed (r : response) : bool :=
  match r with
  | NoResponse _ => true
  | Response code _ => is_error_status code
  end.

(** ** Header values

    The HTTP library looks at the headers twice.  When it prepares the
    request, before it connects, [check_header_validity] matches every
    value against a pattern and raises [InvalidHeader].  When the
    connection stands, [http.client.putheader] encodes every value as
    latin-1, which raises [UnicodeEncodeError], and then refuses a line
    break that is left with [ValueError]; neither of these two is an
    exception of the HTTP library.  (The names of the headers are literals
    of the source, which pass both; the values the library adds of its own
    do too, so the order in which the headers are written does not
    matter.  The library is taken to send the Authorization header of the
    script: the machine has no netrc entry for the host, which the library
    would put in its place.) *)

(** [str.isspace]: the code points the class [\s] matches in a [str]. *)
Definition isspace (c : codepoint) : bool :=
  ((9 <=? c) && (c <=? 13) || (28 <=? c) && (c <=? 32)
   || (c =? 133) || (c =? 160) || (c =? 5760)
   || (8192 <=? c) && (c <=? 8202)
   || (c =? 8232) || (c =? 8233) || (c =? 8239) || (c =? 8287)
   || (c =? 12288))%N.

Definition is_line_break (c : codepoint) : bool :=
  ((c =? 10) || (c =? 13))%N.

Definition no_line_break (s : str) : bool :=
  forallb (λ c, negb (is_line_break c)) s.

(** The string without its last code point, when that is a line feed: the
    anchor [$] of a pattern also matches just before it. *)
Fixpoint before_final_lf (s : str) : str :=
  match s with
  | [] => []
  | c :: r =>
      match r with
      | [] => if (c =? 10)%N then [] else [c]
      | _ :: _ => c :: before_final_lf r
      end
  end.

(** The pattern [^\S[^\r\n]*$|^$] of [check_header_validity]. *)
Definition valid_header_value (v : str) : bool :=
  match before_final_lf v with
  | [] => true
  | c :: r => negb (isspace c) && no_line_break r
  end.

Definition check_header_validity (hs : list (str * str)) : option exn :=
  if forallb (λ h : str * str, valid_header_value h.2) hs then None
  else Some InvalidHeader.

(** [value.encode('latin-1')] succeeds. *)
Definition latin1 (v : str) : bool := forallb (λ c, (c <? 256)%N) v.

(** The pattern [\n(?![ \t])|\r(?![ \t\n])] of [http.client]: a line
    break that does not continue the header. *)
Fixpoint illegal_header_value (v : str) : bool :=
  match v with
  | [] => false
  | c :: r =>
      match r with
      | [] => is_line_break c
      | n :: _ =>
          ((c =? 10) && negb ((n =? 32) || (n =? 9))
           || (c =? 13) && negb ((n =? 32) || (n =? 9) || (n =? 10)))%N
      end
      || illegal_header_value r
  end.

Fixpoint putheaders (hs : list (str * str)) : option exn :=
  match hs with
  | [] => None
  | (_, v) :: r =>
      if negb (latin1 v) then Some UnicodeEncodeError
      else if illegal_header_value v then Some ValueError
      else putheaders r
  end.

(** The string can go into a header value as it is: every code point has
    a latin-1 encoding and none is a line break. *)
Definition header_safe (s : str) : bool := latin1 s && no_line_break s.

(** ** Entries of [repos.json]

    An entry is a JSON object; each of the four fields the script reads may
    be missing.  Present fields have the types of the data model
    ("pipeline-type" missing and ["pipeline-type": null] are both [None],
    as [dict.get] does not tell them apart). *)
Record repo : Type := Repo {
  repo_name : option str;            (* "repo-name" *)
  repo_users : option (list str);    (* "repo-users" *)
  pipeline_type : option str;        (* "pipeline-type" *)
  status : option str                (* "status" *)
}.

Definition set_status (v : str) (r : repo) : repo :=
  {| repo_name := repo_name r; repo_users := repo_users r;
     pipeline_type := pipeline_type r; status := Some v |}.

#[global] Instance exn_eq_dec : EqDecision exn.
Proof. solve_decision. Defined.
#[global] Instance jvalue_eq_dec : EqDecision jvalue.
Proof. solve_decision. Defined.
#[global] Instance meth_eq_dec : EqDecision meth.
Proof. solve_decision. Defined.
#[global] Instance repo_eq_dec : EqDecision repo.
Proof. solve_decision. Defined.

End Py.

(* ===================================================================== *)
(** * The script *)
(* ===================================================================== *)

Module Script.
Import Text Py.

(** What the script runs against: the two environment variables read at
    import time, the template files of the working directory (the text of
    the file at a path, when it exists), the transport with the remote API
    behind it ([None] when the call fails on its way, which the HTTP
    library reports with an exception of its own), and the sealed-box
    primitive of the cryptographic library, which draws fresh randomness
    (both advance the state of the outside world). *)
Class Env : Type := {
  World : Type;
  ORG_NAME : option str;
  GITHUB_TOKEN : option str;
  files : str → option str;
  send : request → World → option answer * World;
  crypto_box_seal : bytes → bytes → World → bytes * World
}.

(** The [while] loop at the head of [encrypt]:
    [while len(public_key) % 4 != 0: public_key += '='] *)
Equations? encrypt_pad (public_key : str) : str
  by wf ((4 - length public_key mod 4) mod 4)%nat lt :=
encrypt_pad public_key with decide (length public_key mod 4 = 0)%nat := {
  | left _ => public_key
  | right _ => encrypt_pad (public_key ++ lit "=")
}.
Proof.
  rewrite length_app; simpl.
  change (length public_key mod 4 ≠ 0)%nat in n.
  change ((4 - (length public_key + 1) mod 4) mod 4
          < (4 - length public_key mod 4) mod 4)%nat.
  lia.
Qed.

Section Defs.
Context `{E : Env}.

(** ** State and the monad of the script *)

(** A call of the HTTP library: the request the script handed over, what
    the call came to, and (ghost) the index of the entry of [repos_data]
    the loop of [main] was at. *)
Definition event : Type := nat * request * response.

(** [repos_data] is the list [main] holds in memory: its dicts are mutated
    in place, so an entry is addressed by its index.  [repos_json] is the
    parsed content of the file [repos.json], a list of entries (a file that
    does not parse to one makes [json.load] or the loop raise before any
    request; that is outside this model).  [log] records every call of
    the HTTP library, in order; [current] is the ghost loop index.  What
    the script prints is not modelled: standard output is taken to accept
    every string. *)
Record state : Type := State {
  world : World;
  repos_data : list repo;
  repos_json : list repo;
  log : list event;
  current : nat
}.

Definition M (A : Type) : Type := state → result A * state.

Definition ret {A} (a : A) : M A := λ st, (Ok a, st).
Definition raise {A} (e : exn) : M A := λ st, (Raise e, st).
Definition bind {A B} (c : M A) (k : A → M B) : M B :=
  λ st, match c st with
        | (Ok a, st') => k a st'
        | (Raise e, st') => (Raise e, st')
        end.

(** The value of an operation that can fail with [e]. *)
Definition or_raise {A} (e : exn) (o : option A) : M A :=
  match o with Some a => ret a | None => raise e end.

(** [try: c  except requests.exceptions.RequestException as e: print(...)] *)
Definition try_except_RequestException (c : M unit) : M unit :=
  λ st, match c st with
        | (Raise e, st') =>
            if is_request_exception e then (Ok tt, st') else (Raise e, st')
        | r => r
        end.

End Defs.

Notation "x <- c ;; k" := (bind c (λ x, k))
  (at level 100, c at next level, right associativity).
Notation "c ;;; k" := (bind c (λ _, k))
  (at level 100, right associativity).

Section Functions.
Context `{E : Env}.

(** [for x in l: body(x)] *)
Fixpoint for_each {A} (l : list A) (body : A → M unit) : M unit :=
  match l with
  | [] => ret tt
  | x :: r => body x ;;; for_each r body
  end.

(** ** Module-level values *)

Definition GITHUB_API_URL : str := lit "https://api.github.com".

(** [f"{v}"] of an environment value: [None] prints as "None". *)
Definition fmt (v : option str) : str := default (lit "None") v.

Definition HEADERS : list (str * str) :=
  [ (lit "Authorization", lit "token " ++ fmt GITHUB_TOKEN);
    (lit "Accept", lit "application/vnd.github.v3+json") ].

(** ** The HTTP library *)

(** [requests.request], which [requests.post], [requests.put] and
    [requests.get] all come to.  The headers are checked when the request
    is prepared; then the transport connects; then the headers are written,
    and only when they can be is the request carried out.  So for a request
    whose headers cannot be written, all the transport says is whether the
    connection stands.  (Which of its own exceptions the library raises
    for a call that fails on its way makes no difference to the script:
    its handler catches them all alike.) *)
Definition requests_request (rq : request) (w : World) : response * World :=
  match check_header_validity (headers rq) with
  | Some e => (NoResponse e, w)
  | None =>
      let '(a, w') := send rq w in
      match a with
      | None => (NoResponse ConnectionError, w')
      | Some (code, body) =>
          match putheaders (headers rq) with
          | Some e => (NoResponse e, w')
          | None => (Response code body, w')
          end
      end
  end.

(** A call with the headers of the script: it is logged, and returns the
    response or raises. *)
Definition http (m : meth) (url : str) (payload : option jobject)
  : M response :=
  λ st,
    let rq := Request m url HEADERS payload in
    let '(rs, w) := requests_request rq (world st) in
    let st' := State w (repos_data st) (repos_json st)
                     (log st ++ [(current st, rq, rs)]) (current st) in
    match rs with
    | NoResponse e => (Raise e, st')
    | Response _ _ => (Ok rs, st')
    end.

Definition requests_post (url : str) (payload : jobject) : M response :=
  http POST url (Some payload).
Definition requests_put (url : str) (payload : jobject) : M response :=
  http PUT url (Some payload).
Definition requests_get (url : str) : M response :=
  http GET url None.

Definition raise_for_status (r : response) : M unit :=
  match r with
  | Response code _ =>
      if is_error_status code then raise (HTTPError code) else ret tt
  | NoResponse _ => ret tt
  end.

Definition response_json (r : response) : M public_key_info :=
  match r with
  | Response _ (Ok doc) => ret doc
  | Response _ (Raise e) => raise e
  | NoResponse e => raise e
  end.

(** ** The functions of the script *)

Definition create_repo (repo_name : str) : M unit :=
  let url := GITHUB_API_URL ++ lit "/orgs/" ++ fmt ORG_NAME ++ lit "/repos" in
  let payload := [ (lit "name", JStr repo_name);
                   (lit "private", JBool true) ] in
  response <- requests_post url payload ;;
  raise_for_status response.

Definition add_collaborator (repo_name user : str) : M unit :=
  let url := GITHUB_API_URL ++ lit "/repos/" ++ fmt ORG_NAME ++ lit "/"
             ++ repo_name ++ lit "/collaborators/" ++ user in
  let payload := [ (lit "permission", JStr (lit "push")) ] in
  response <- requests_put url payload ;;
  raise_for_status response.

Definition read_pipeline_file (pipeline_type : str) : M str :=
  let file_path := pipeline_type ++ lit ".yml" in
  match files file_path with
  | Some text => ret text
  | None => raise FileNotFoundError
  end.

Definition create_pipeline (repo_name : str) (pipeline_type : option str)
  : M unit :=
  match pipeline_type with
  | None => raise ValueError
  | Some pipeline_type =>
      content <- read_pipeline_file pipeline_type ;;
      content_bytes <- or_raise UnicodeEncodeError (utf8_encode content) ;;
      encoded_content <-
        or_raise UnicodeDecodeError (utf8_decode (b64encode content_bytes)) ;;
      let url := GITHUB_API_URL ++ lit "/repos/" ++ fmt ORG_NAME ++ lit "/"
                 ++ repo_name ++ lit "/contents/.github/workflows/"
                 ++ pipeline_type ++ lit ".yml" in
      let payload :=
        [ (lit "message",
            JStr (lit "Add " ++ pipeline_type ++ lit " pipeline"));
          (lit "content", JStr encoded_content);
          (lit "branch", JStr (lit "main")) ] in
      response <- requests_put url payload ;;
      raise_for_status response
  end.

Definition get_public_key (repo_name : str) : M public_key_info :=
  let url := GITHUB_API_URL ++ lit "/repos/" ++ fmt ORG_NAME ++ lit "/"
             ++ repo_name ++ lit "/actions/secrets/public-key" in
  response <- requests_get url ;;
  raise_for_status response ;;;
  response_json response.

(** [SealedBox(public_key).encrypt(message)] *)
Definition sealed_box_encrypt (public_key message : bytes) : M bytes :=
  λ st,
    let '(c, w) := crypto_box_seal message public_key (world st) in
    (Ok c, State w (repos_data st) (repos_json st) (log st) (current st)).

(** [PublicKey(data, encoder=Base64Encoder())]: decode, then check the
    size of the key. *)
Definition PublicKey (data : bytes) : M bytes :=
  raw <- or_raise BinasciiError (b64decode data) ;;
  if decide (length raw = 32) then ret raw else raise NaclValueError.

(** The last three lines of [encrypt], with the key object at hand: seal
    the secret and encode the result.  [secret_value] is [None] when the
    environment has no [GH_TOKEN]; then [secret_value.encode] raises
    [AttributeError]. *)
Definition encrypt_for (public_key : bytes) (secret_value : option str)
  : M str :=
  secret_value <- or_raise AttributeError secret_value ;;
  message <- or_raise UnicodeEncodeError (utf8_encode secret_value) ;;
  encrypted <- sealed_box_encrypt public_key message ;;
  or_raise UnicodeDecodeError (utf8_decode (b64encode encrypted)).

Definition encrypt (public_key : str) (secret_value : option str) : M str :=
  let public_key := encrypt_pad public_key in
  key_bytes <- or_raise UnicodeEncodeError (utf8_encode public_key) ;;
  public_key <- PublicKey key_bytes ;;
  encrypt_for public_key secret_value.

Definition set_repo_secrets (repo_name : str)
    (secrets : list (str * option str)) : M unit :=
  public_key_info <- get_public_key repo_name ;;
  public_key <- or_raise (KeyError (lit "key")) (key public_key_info) ;;
  for_each secrets (λ item,
    let '(secret_name, secret_value) := item in
    let url := GITHUB_API_URL ++ lit "/repos/" ++ fmt ORG_NAME ++ lit "/"
               ++ repo_name ++ lit "/actions/secrets/" ++ secret_name in
    encrypted_value <- encrypt public_key secret_value ;;
    key_id <- or_raise (KeyError (lit "key_id")) (key_id public_key_info) ;;
    let payload := [ (lit "encrypted_value", JStr encrypted_value);
                     (lit "key_id", JStr key_id) ] in
    response <- requests_put url payload ;;
    raise_for_status response).

(** ** [main] *)

(** [repo[key]] on the dict at index [r] of [repos_data]; a missing key
    raises [KeyError].  (The loop only hands out indices of the list, so the
    second branch is never taken in a run.) *)
Definition getitem {A} (r : nat) (key : str) (field : repo → option A)
  : M A :=
  λ st, match repos_data st !! r with
        | Some d => or_raise (KeyError key) (field d) st
        | None => (Raise (KeyError key), st)
        end.

(** [repo.get(key)] *)
Definition dict_get {A} (r : nat) (field : repo → option A)
  : M (option A) :=
  λ st, (Ok (repos_data st !! r ≫= field), st).

(** [repo["status"] = v], in place. *)
Definition setitem_status (r : nat) (v : str) : M unit :=
  λ st, (Ok tt, State (world st) (alter (set_status v) r (repos_data st))
                      (repos_json st) (log st) (current st)).

(** [with open('repos.json') as f: repos_data = json.load(f)] *)
Definition json_load : M (list repo) :=
  λ st, (Ok (repos_json st),
         State (world st) (repos_json st) (repos_json st) (log st)
               (current st)).

(** [with open('repos.json', 'w') as f: json.dump(repos_data, f, indent=2)] *)
Definition json_dump : M unit :=
  λ st, (Ok tt, State (world st) (repos_data st) (repos_data st) (log st)
                      (current st)).

(** Ghost: the loop is at entry [r]. *)
Definition enter (r : nat) : M unit :=
  λ st, (Ok tt, State (world st) (repos_data st) (repos_json st) (log st) r).

Definition secrets : list (str * option str) :=
  [ (lit "SECRET_KEY", Some (lit "example_secret_value"));
    (lit "GH_TOKEN", GITHUB_TOKEN) ].

(** The provisioning steps of the [try] statement of [main] for the entry
    [repo]: everything before the assignment of the status. *)
Definition provision (repo : nat) : M unit :=
  name <- getitem repo (lit "repo-name") repo_name ;;
  create_repo name ;;;
  users <- getitem repo (lit "repo-users") repo_users ;;
  for_each users (λ user,
    name <- getitem repo (lit "repo-name") repo_name ;;
    add_collaborator name user) ;;;
  name <- getitem repo (lit "repo-name") repo_name ;;
  pt <- dict_get repo pipeline_type ;;
  create_pipeline name pt ;;;
  name <- getitem repo (lit "repo-name") repo_name ;;
  set_repo_secrets name secrets.

(** The body of the [try] statement. *)
Definition try_body (repo : nat) : M unit :=
  provision repo ;;;
  setitem_status repo (lit "created").

(** The body of the [for] loop of [main]. *)
Definition for_body (repo : nat) : M unit :=
  enter repo ;;;
  status <- getitem repo (lit "status") status ;;
  if decide (status = lit "need-to-create")
  then try_except_RequestException (try_body repo)
  else ret tt.

Definition main : M unit :=
  repos_data <- json_load ;;
  for_each (seq 0 (length repos_data)) for_body ;;;
  json_dump.

(** A run of the script on a fresh process. *)
Definition initial (w : World) (repos : list repo) : state :=
  State w [] repos [] 0.

Definition run (w : World) (repos : list repo) : result unit * state :=
  main (initial w repos).

(** The calls of the log that were made for the entry at index [i]: the
    requests, with what they came to. *)
Definition calls_for (i : nat) (l : list event) : list (request * response) :=
  omap (λ ev : event, let '(j, rq, rs) := ev in
                      if decide (j = i) then Some (rq, rs) else None) l.

End Functions.

(** ** The vocabulary of the properties *)

Section Vocabulary.
Context `{E : Env}.

(** The requests the functions hand to the HTTP library. *)
Definition create_repo_request (repo_name : str) : request :=
  Request POST
    (GITHUB_API_URL ++ lit "/orgs/" ++ fmt ORG_NAME ++ lit "/repos")
    HEADERS
    (Some [ (lit "name", JStr repo_name); (lit "private", JBool true) ]).

Definition add_collaborator_request (repo_name user : str) : request :=
  Request PUT
    (GITHUB_API_URL ++ lit "/repos/" ++ fmt ORG_NAME ++ lit "/"
     ++ repo_name ++ lit "/collaborators/" ++ user)
    HEADERS
    (Some [ (lit "permission", JStr (lit "push")) ]).

Definition create_pipeline_request (repo_name pipeline_type content : str)
  : request :=
  Request PUT
    (GITHUB_API_URL ++ lit "/repos/" ++ fmt ORG_NAME ++ lit "/"
     ++ repo_name ++ lit "/contents/.github/workflows/"
     ++ pipeline_type ++ lit ".yml")
    HEADERS
    (Some [ (lit "message",
              JStr (lit "Add " ++ pipeline_type ++ lit " pipeline"));
            (lit "content", JStr content);
            (lit "branch", JStr (lit "main")) ]).

Definition get_public_key_request (repo_name : str) : request :=
  Request GET
    (GITHUB_API_URL ++ lit "/repos/" ++ fmt ORG_NAME ++ lit "/"
     ++ repo_name ++ lit "/actions/secrets/public-key")
    HEADERS None.

Definition set_secret_request
    (repo_name secret_name encrypted_value key_id : str) : request :=
  Request PUT
    (GITHUB_API_URL ++ lit "/repos/" ++ fmt ORG_NAME ++ lit "/"
     ++ repo_name ++ lit "/actions/secrets/" ++ secret_name)
    HEADERS
    (Some [ (lit "encrypted_value", JStr encrypted_value);
            (lit "key_id", JStr key_id) ]).

Definition call : Type := request * response.

Definition succeeded (c : call) : Prop := failed c.2 = false.

Definition tag (i : nat) (c : call) : event := (i, c.1, c.2).

(** A computation that leaves the data alone and makes [calls]. *)
Definition frame (st st' : state) (calls : list call) : Prop :=
  repos_data st' = repos_data st ∧ repos_json st' = repos_json st
  ∧ current st' = current st
  ∧ log st' = log st ++ (tag (current st) <$> calls).

(** Only the last call can be a failed one. *)
Definition fail_last (calls : list call) : Prop :=
  ∃ pre, Forall succeeded pre ∧ (calls = pre ∨ ∃ c, calls = pre ++ [c]).

Definition is_ok {A} (r : result A) : Prop :=
  match r with Ok _ => True | Raise _ => False end.

(** [c] keeps the frame, stops at the first failed call, and returns
    normally only when every call succeeded. *)
Definition clean {A} (c : M A) : Prop :=
  ∀ st, ∃ calls,
    frame st (c st).2 calls ∧ fail_last calls
    ∧ (is_ok (c st).1 → Forall succeeded calls).

(** The text of the file a pipeline type names, base64-encoded. *)
Definition encoded_template (pipeline_type encoded : str) : Prop :=
  ∃ text content,
    files (pipeline_type ++ lit ".yml") = Some text
    ∧ utf8_encode text = Some content
    ∧ utf8_decode (b64encode content) = Some encoded.

(** Every provisioning call of the entry [d] was made, in order, and
    succeeded: create, one collaborator call per user, the pipeline
    upload, the public key, and the two secrets. *)
Definition complete (d : repo) (calls : list call) : Prop :=
  ∃ name users pt encoded kid ev1 ev2,
    repo_name d = Some name ∧ repo_users d = Some users
    ∧ pipeline_type d = Some pt ∧ encoded_template pt encoded
    ∧ calls.*1 =
        create_repo_request name
        :: (add_collaborator_request name <$> users)
        ++ [ create_pipeline_request name pt encoded;
             get_public_key_request name;
             set_secret_request name (lit "SECRET_KEY") ev1 kid;
             set_secret_request name (lit "GH_TOKEN") ev2 kid ]
    ∧ Forall succeeded calls.

(** The request uploads a pipeline file. *)
Definition uploads_file (rq : request) : Prop :=
  ∃ name pt content, rq = create_pipeline_request name pt content.

(** The entry has no pipeline type, or one without a template file. *)
Definition no_template (d : repo) : Prop :=
  match pipeline_type d with
  | None => True
  | Some pt => files (pt ++ lit ".yml") = None
  end.

(** Provisioning of [d] stopped early: whatever was called begins with the
    create call, nothing follows a failed call, and nothing was uploaded
    when the entry has no template. *)
Definition aborted (d : repo) (calls : list call) : Prop :=
  fail_last calls
  ∧ (∀ c rest, calls = c :: rest →
       ∃ name, repo_name d = Some name ∧ c.1 = create_repo_request name)
  ∧ (no_template d → Forall (λ c : call, ¬ uploads_file c.1) calls).

(** What a run does to the entry [d]: [d'] is the entry afterwards and
    [calls] are the calls issued for it. *)
Definition outcome (d d' : repo) (calls : list call) : Prop :=
  if decide (status d = Some (lit "need-to-create"))
  then (d' = set_status (lit "created") d ∧ complete d calls)
       ∨ (d' = d ∧ aborted d calls)
  else d' = d ∧ calls = [].

(** The public key [public_key], as the remote sends it, names the 32
    octets [raw]. *)
Definition decodes_to (public_key : str) (raw : bytes) : Prop :=
  ∃ key_bytes,
    utf8_encode (encrypt_pad public_key) = Some key_bytes
    ∧ b64decode key_bytes = Some raw ∧ length raw = 32.

(** [encrypted_value] is what [encrypt] makes of [secret_value] for the
    key [raw]: a sealed box of its UTF-8 encoding, in base64. *)
Definition seals (raw : bytes) (secret_value encrypted_value : str) : Prop :=
  ∃ message w,
    utf8_encode secret_value = Some message
    ∧ utf8_decode (b64encode (crypto_box_seal message raw w).1)
      = Some encrypted_value.

(** The two secrets are the example value and the token, each sealed for
    the key of the document that the public-key call [key_call] returned;
    [kid] is the identifier of that key. *)
Definition secrets_sealed (key_call : response) (kid ev1 ev2 : str) : Prop :=
  ∃ code k raw token,
    key_call = Response code (Ok (PublicKeyInfo (Some k) (Some kid)))
    ∧ decodes_to k raw
    ∧ seals raw (lit "example_secret_value") ev1
    ∧ GITHUB_TOKEN = Some token ∧ seals raw token ev2.

(** Every remote call succeeds: no call fails on its way, the remote
    answers every request with a status that is not an error, and the
    public-key request with a document that holds a key of 32 octets and
    its identifier. *)
Definition remote_succeeds : Prop :=
  ∀ rq w, ∃ code body,
    (send rq w).1 = Some (code, body)
    ∧ is_error_status code = false
    ∧ (method rq = GET →
       ∃ k kid raw, body = Ok (PublicKeyInfo (Some k) (Some kid))
                    ∧ decodes_to k raw).

End Vocabulary.

(** ** Further vocabulary: plans, outcomes of a call, ready entries *)

Section Plans.
Context `{E : Env}.

(** The exception a failed call ends in: the one the call raised, or the
    one [raise_for_status] raises for the status code. *)
Definition error_of (rs : response) : exn :=
  match rs with
  | NoResponse e => e
  | Response code _ => HTTPError code
  end.

(** What a call followed by [raise_for_status] returns. *)
Definition checked (rs : response) : result unit :=
  if failed rs then Raise (error_of rs) else Ok tt.

(** The requests of a complete provisioning, in the order of the source. *)
Definition plan (name : str) (users : list str)
    (pt encoded kid ev1 ev2 : str) : list request :=
  create_repo_request name
  :: (add_collaborator_request name <$> users)
  ++ [ create_pipeline_request name pt encoded;
       get_public_key_request name;
       set_secret_request name (lit "SECRET_KEY") ev1 kid;
       set_secret_request name (lit "GH_TOKEN") ev2 kid ].

(** The plan of an entry; a missing field stands for the empty value (no
    request that needs it is ever issued). *)
Definition plan_of (d : repo) (encoded kid ev1 ev2 : str) : list request :=
  plan (default [] (repo_name d)) (default [] (repo_users d))
       (default [] (pipeline_type d)) encoded kid ev1 ev2.

(** The entry index an event of the log carries. *)
Definition entry_of (ev : event) : nat := ev.1.1.

(** The request of an event of the log. *)
Definition request_of (ev : event) : request := ev.1.2.






(** The headers of the script pass both checks of the HTTP library. *)
Definition headers_pass : Prop :=
  check_header_validity HEADERS = None ∧ putheaders HEADERS = None.

(** Every call with the headers of the script returns a response with a
    status that is not an error, and for the public key a document with a
    key of 32 octets and its identifier. *)
Definition calls_succeed : Prop :=
  ∀ m url payload w, ∃ code body,
    (requests_request (Request m url HEADERS payload) w).1
    = Response code body
    ∧ is_error_status code = false
    ∧ (m = GET →
       ∃ k kid raw, body = Ok (PublicKeyInfo (Some k) (Some kid))
                    ∧ decodes_to k raw).


End Plans.

End Script.

(* ===================================================================== *)
(** * Concrete environments *)
(* ===================================================================== *)

Module Demo.
Import Text Py Script.

(** A toy sealed box: the ciphertext is the recipient key followed by the
    message; opening drops the key.  The world counts the operations. *)
Definition toy_seal (message public_key : bytes) (w : nat) : bytes * nat :=
  (public_key ++ message, S w).

Definition toy_seal_open (ciphertext public_key secret_key : bytes)
  : option bytes :=
  Some (drop (length public_key) ciphertext).

Definition toy_keypair (secret_key public_key : bytes) : Prop :=
  secret_key = public_key.

(** An environment with organisation "acme", token "t0ken", the template
    [deploy.yml] containing "name: CI", and [server] as the remote. *)
Definition env (server : request → nat → option answer) : Env := {|
  World := nat;
  ORG_NAME := Some (lit "acme");
  GITHUB_TOKEN := Some (lit "t0ken");
  files := λ path, if decide (path = lit "deploy.yml")
                   then Some (lit "name: CI") else None;
  send := λ rq w, (server rq w, S w);
  crypto_box_seal := toy_seal
|}.

(** The 32 zero octets in base64, without the final '=' (43 characters). *)
Definition key43 : str := replicate 43 65%N.

Definition key_doc : public_key_info :=
  PublicKeyInfo (Some key43) (Some (lit "568250167242549743")).

(** Every request is answered 201 with the key document. *)
Definition ok_server : request → nat → option answer :=
  λ _ _, Some (201%N, Ok key_doc).

(** The create call is answered 422 (the name is taken). *)
Definition name_taken_server : request → nat → option answer :=
  λ rq _, match method rq with
          | POST => Some (422%N, Ok key_doc)
          | _ => Some (201%N, Ok key_doc)
          end.

(** The create call is answered 304, a status that is neither a success
    nor an error. *)
Definition not_modified_server : request → nat → option answer :=
  λ rq _, match method rq with
          | POST => Some (304%N, Ok key_doc)
          | _ => Some (201%N, Ok key_doc)
          end.

Definition need_to_create (name : string) (users : list string)
    (pipeline : option string) : repo :=
  Repo (Some (lit name)) (Some (lit <$> users)) (lit <$> pipeline)
       (Some (lit "need-to-create")).

Definition svc_a : repo := need_to_create "svc-a" ["alice"%string] (Some "deploy"%string).

(** An entry whose pipeline type has no template file. *)
Definition svc_b : repo := need_to_create "svc-b" ["bob"%string] (Some "build"%string).

Definition svc_done : repo :=
  Repo (Some (lit "svc-c")) (Some [lit "carol"]) (Some (lit "deploy"))
       (Some (lit "created")).

(** The environment of [env] without [GH_TOKEN]. *)
Definition env_without_token (server : request → nat → option answer)
  : Env := {|
  World := nat;
  ORG_NAME := Some (lit "acme");
  GITHUB_TOKEN := None;
  files := λ path, if decide (path = lit "deploy.yml")
                   then Some (lit "name: CI") else None;
  send := λ rq w, (server rq w, S w);
  crypto_box_seal := toy_seal
|}.

(** The environment of [env] with another token. *)
Definition env_with_token (token : str)
    (server : request → nat → option answer) : Env := {|
  World := nat;
  ORG_NAME := Some (lit "acme");
  GITHUB_TOKEN := Some token;
  files := λ path, if decide (path = lit "deploy.yml")
                   then Some (lit "name: CI") else None;
  send := λ rq w, (server rq w, S w);
  crypto_box_seal := toy_seal
|}.

(** Tokens that cannot go into a header as they are: "t" followed by the
    euro sign, which has no latin-1 encoding; "t0ken" followed by a line
    feed; and "t0" and "ken" with a line feed in between. *)
Definition euro_token : str := lit "t" ++ [8364%N].
Definition newline_token : str := lit "t0ken" ++ [10%N].
Definition two_line_token : str := lit "t0" ++ [10%N] ++ lit "ken".

(** The transport never connects. *)
Definition unreachable_server : request → nat → option answer :=
  λ _ _, None.


Definition svc_retired : repo :=
  Repo (Some (lit "svc-e")) (Some [lit "erin"]) (Some (lit "deploy"))
       (Some (lit "Need-To-Create")).

(** The third request of a run is answered 500, the others 201. *)
Definition third_fails_server : request → nat → option answer :=
  λ _ w, if decide (w = 2) then Some (500%N, Ok key_doc)
         else Some (201%N, Ok key_doc).

End Demo.

(* ===================================================================== *)
(** * Facts about text and bytes *)
(* ===================================================================== *)

Module TextFacts.
Import Text.
Local Open Scope N_scope.

Lemma to_N_byte_of_N (n : N) : n < 256 → Byte.to_N (byte_of_N n) = n.
Proof.
  intros Hn. unfold byte_of_N.
  destruct (Byte.of_N n) as [b|] eqn:Hb; simpl.
  - by apply Byte.to_of_N.
  - apply Byte.of_N_None_iff in Hb. lia.
Qed.

Lemma byte_of_N_to_N (b : byte) : byte_of_N (Byte.to_N b) = b.
Proof. unfold byte_of_N. by rewrite Byte.of_to_N. Qed.

Lemma to_N_lt (b : byte) : Byte.to_N b < 256.
Proof. pose proof (Byte.to_N_bounded b). lia. Qed.

Lemma byte_eqb_false (a b : byte) :
  Byte.to_N a ≠ Byte.to_N b → Byte.eqb a b = false.
Proof.
  intros Hne. destruct (Byte.eqb a b) eqn:Heq; [|done].
  apply Byte.byte_dec_bl in Heq. by subst.
Qed.

Lemma lit_app (a b : string) : lit (a ++ b) = lit a ++ lit b.
Proof.
  unfold lit. induction a as [|c a IH]; simpl; [done|]. by rewrite IH.
Qed.

(** Resolve the comparisons of the codecs once the operands are known. *)
Ltac cmp :=
  repeat match goal with
    | |- context [N.ltb ?a ?b] => destruct (N.ltb_spec a b); try lia
    | |- context [N.leb ?a ?b] => destruct (N.leb_spec a b); try lia
    | |- context [N.eqb ?a ?b] => destruct (N.eqb_spec a b); try lia
    end; simpl.

(** ** UTF-8 *)

Lemma utf8_decode_encode_cp (c : codepoint) (b rest : bytes) :
  utf8_encode_cp c = Some b →
  utf8_decode (b ++ rest) = cons c <$> utf8_decode rest.
Proof.
  unfold utf8_encode_cp.
  destruct (N.ltb_spec c 0x80); [|destruct (N.ltb_spec c 0x800);
    [|destruct (N.ltb_spec c 0x10000);
      [destruct (N.leb_spec 0xD800 c), (N.ltb_spec c 0xE000); simpl
      |destruct (N.ltb_spec c 0x110000)]]];
    intros [= <-] || (intros; discriminate); simpl;
    unfold is_cont, cont; rewrite ?to_N_byte_of_N by lia; cmp;
    repeat f_equal; lia.
Qed.

Lemma utf8_decode_encode (s : str) (bs : bytes) :
  utf8_encode s = Some bs → utf8_decode bs = Some s.
Proof.
  revert bs. induction s as [|c s IH]; intros bs; simpl.
  - by intros [= <-].
  - destruct (utf8_encode_cp c) as [b|] eqn:Hc; [|done].
    destruct (utf8_encode s) as [br|]; [|done]. intros [= <-].
    rewrite (utf8_decode_encode_cp c b br Hc), (IH br eq_refl). done.
Qed.

(** Bytes below 128 are ASCII text, and conversely. *)
Lemma utf8_decode_ascii (bs : bytes) :
  ascii_bytes bs → utf8_decode bs = Some (Byte.to_N <$> bs).
Proof.
  induction 1 as [|b bs Hb _ IH]; [done|]. simpl.
  destruct (N.ltb_spec (Byte.to_N b) 0x80); [|lia]. by rewrite IH.
Qed.

Lemma utf8_encode_ascii (bs : bytes) :
  ascii_bytes bs → utf8_encode (Byte.to_N <$> bs) = Some bs.
Proof.
  induction 1 as [|b bs Hb _ IH]; [done|]. simpl.
  unfold utf8_encode_cp. destruct (N.ltb_spec (Byte.to_N b) 0x80); [|lia].
  change (list_fmap byte N Byte.to_N bs) with (Byte.to_N <$> bs).
  by rewrite IH, byte_of_N_to_N.
Qed.

(** ** Base64 *)

Lemma b64_char_ascii (n : N) : Byte.to_N (b64_char n) < 0x80.
Proof.
  unfold b64_char. cmp; rewrite ?to_N_byte_of_N by lia; lia.
Qed.

Lemma b64_pad_ascii : Byte.to_N b64_pad < 0x80.
Proof. by vm_compute. Qed.

Lemma b64encode_ascii (bs : bytes) : ascii_bytes (b64encode bs).
Proof.
  unfold ascii_bytes.
  induction bs as [bs IH] using (induction_ltof1 _ (@length byte)).
  unfold ltof in IH.
  destruct bs as [|a [|b [|c r]]]; simpl;
    repeat first [ apply Forall_nil_2
                 | apply Forall_cons_2;
                   [first [apply b64_char_ascii | apply b64_pad_ascii]|] ].
  apply IH. simpl. lia.
Qed.

Lemma b64_index_char (n : N) : n < 64 → b64_index (b64_char n) = Some n.
Proof.
  intros Hn. unfold b64_char, b64_index.
  destruct (N.ltb_spec n 26); [|destruct (N.ltb_spec n 52);
    [|destruct (N.ltb_spec n 62); [|destruct (N.eqb_spec n 62)]]];
    rewrite ?to_N_byte_of_N by lia; cmp; f_equal; lia.
Qed.

Lemma b64_char_not_pad (n : N) : Byte.eqb (b64_char n) b64_pad = false.
Proof.
  apply byte_eqb_false. unfold b64_char, b64_pad.
  cmp; rewrite ?to_N_byte_of_N by lia; lia.
Qed.

(** One alphabet character through the decoder. *)
Lemma a2b_loop_char (n : N) (rest : bytes) (quad_pos : nat) (leftchar : N)
    (pads : nat) :
  n < 64 →
  a2b_loop (b64_char n :: rest) quad_pos leftchar pads =
    match quad_pos with
    | 0%nat => a2b_loop rest 1 n 0
    | 1%nat => cons (byte_of_N ((leftchar * 4 + n / 16) mod 256))
                 <$> a2b_loop rest 2 (n mod 16) 0
    | 2%nat => cons (byte_of_N ((leftchar * 16 + n / 4) mod 256))
                 <$> a2b_loop rest 3 (n mod 4) 0
    | _ => cons (byte_of_N ((leftchar * 64 + n) mod 256))
             <$> a2b_loop rest 0 0 0
    end.
Proof.
  intros Hn. simpl. by rewrite b64_char_not_pad, b64_index_char.
Qed.

Lemma byte_of_N_eq (n : N) (b : byte) : n = Byte.to_N b → byte_of_N n = b.
Proof. intros ->. apply byte_of_N_to_N. Qed.

Lemma b64decode_b64encode (bs : bytes) : b64decode (b64encode bs) = Some bs.
Proof.
  unfold b64decode.
  induction bs as [bs IH] using (induction_ltof1 _ (@length byte)).
  unfold ltof in IH.
  destruct bs as [|a [|b [|c r]]]; [done| | |].
  - pose proof (to_N_lt a). simpl b64encode.
    rewrite !a2b_loop_char by lia. simpl.
    f_equal. f_equal. apply byte_of_N_eq. lia.
  - pose proof (to_N_lt a). pose proof (to_N_lt b). simpl b64encode.
    rewrite !a2b_loop_char by lia. simpl.
    f_equal. f_equal; [|f_equal]; apply byte_of_N_eq; lia.
  - pose proof (to_N_lt a). pose proof (to_N_lt b). pose proof (to_N_lt c).
    simpl b64encode. rewrite !a2b_loop_char by lia.
    rewrite IH by (simpl; lia). simpl.
    f_equal. f_equal; [|f_equal; [|f_equal]]; apply byte_of_N_eq; lia.
Qed.

End TextFacts.

(* ===================================================================== *)
(** * Facts about the script *)
(* ===================================================================== *)

Module ScriptFacts.
Import Text Py Script TextFacts.

#[global] Opaque lit utf8_encode utf8_decode b64encode b64decode.

(** ** Padding of the public key *)

Lemma pad_count_step (n : nat) :
  n mod 4 ≠ 0 → (4 - n mod 4) mod 4 = S ((4 - (n + 1) mod 4) mod 4).
Proof. lia. Qed.

Lemma encrypt_pad_eq (public_key : str) :
  encrypt_pad public_key =
    public_key ++ replicate ((4 - length public_key mod 4) mod 4) 61%N.
Proof.
  funelim (encrypt_pad public_key).
  - replace ((4 - length public_key mod 4) mod 4) with 0 by lia.
    simpl. by rewrite app_nil_r.
  - rewrite H. rewrite length_app. simpl length.
    rewrite (pad_count_step (length public_key)) by done.
    simpl. by rewrite <- app_assoc.
Qed.

Lemma encrypt_pad_length (public_key : str) :
  length (encrypt_pad public_key) mod 4 = 0.
Proof.
  rewrite encrypt_pad_eq, length_app, length_replicate. lia.
Qed.

Section Monad.
Context `{E : Env}.

Lemma bind_ok {A B} (c : M A) (k : A → M B) st a st1 :
  c st = (Ok a, st1) → bind c k st = k a st1.
Proof. unfold bind. by intros ->. Qed.

Lemma bind_raise {A B} (c : M A) (k : A → M B) st e st1 :
  c st = (Raise e, st1) → bind c k st = (Raise e, st1).
Proof. unfold bind. by intros ->. Qed.

Lemma bind_inv_ok {A B} (c : M A) (k : A → M B) st b st' :
  bind c k st = (Ok b, st') →
  ∃ a st1, c st = (Ok a, st1) ∧ k a st1 = (Ok b, st').
Proof.
  unfold bind. destruct (c st) as [[a|e] st1]; [eauto|done].
Qed.

Lemma or_raise_inv_ok {A} (e : exn) (o : option A) st a st' :
  or_raise e o st = (Ok a, st') → o = Some a ∧ st' = st.
Proof. destruct o; simpl; unfold ret, raise; by intros [= <- <-]. Qed.

(** ** Frames *)

#[local] Instance tag_inj (i : nat) : Inj (=) (=) (tag i).
Proof. intros [??] [??] [= -> ->]. done. Qed.

Lemma frame_refl st : frame st st [].
Proof. unfold frame. simpl. by rewrite app_nil_r. Qed.

Lemma frame_trans st st1 st2 l1 l2 :
  frame st st1 l1 → frame st1 st2 l2 → frame st st2 (l1 ++ l2).
Proof.
  intros (Hd1 & Hj1 & Hc1 & Hl1) (Hd2 & Hj2 & Hc2 & Hl2).
  unfold frame. rewrite Hd2, Hj2, Hc2, Hl2, Hl1, Hc1, fmap_app, app_assoc.
  done.
Qed.

Lemma frame_lookup st st' l i :
  frame st st' l → repos_data st' !! i = repos_data st !! i.
Proof. by intros (-> & _). Qed.

Lemma frame_unique st st' l1 l2 : frame st st' l1 → frame st st' l2 → l1 = l2.
Proof.
  intros (_ & _ & _ & H1) (_ & _ & _ & H2). rewrite H1 in H2.
  apply app_inv_head in H2.
  by apply (inj (fmap (tag (current st)))) in H2.
Qed.

Lemma fail_last_nil : fail_last [].
Proof. exists []. auto. Qed.

Lemma fail_last_app l1 l2 :
  Forall succeeded l1 → fail_last l2 → fail_last (l1 ++ l2).
Proof.
  intros H1 (pre & Hpre & Hl2). exists (l1 ++ pre). split.
  - by apply Forall_app.
  - destruct Hl2 as [-> | [c ->]]; [by left|right].
    exists c. by rewrite app_assoc.
Qed.

(** After a failed call nothing follows. *)
Lemma fail_last_failed l pre c post :
  fail_last l → l = pre ++ c :: post → failed c.2 = true → post = [].
Proof.
  intros (ok & Hok & Hl) -> Hc.
  assert (Hnot : ¬ succeeded c) by (unfold succeeded; congruence).
  destruct Hl as [Hl | [c' Hl]].
  - subst ok. apply Forall_app in Hok as [_ Hok].
    by apply Forall_cons in Hok as [? _].
  - destruct post as [|p post _] using rev_ind; [done|].
    rewrite app_comm_cons, app_assoc in Hl.
    apply app_inj_tail in Hl as [<- _].
    apply Forall_app in Hok as [_ Hok].
    by apply Forall_cons in Hok as [? _].
Qed.

(** ** Clean computations *)

Lemma clean_ret {A} (a : A) : clean (ret a).
Proof.
  intros st. exists []. split_and!; [apply frame_refl|apply fail_last_nil|done].
Qed.

Lemma clean_raise {A} (e : exn) : clean (raise (A := A) e).
Proof.
  intros st. exists []. split_and!; [apply frame_refl|apply fail_last_nil|done].
Qed.

Lemma clean_or_raise {A} (e : exn) (o : option A) : clean (or_raise e o).
Proof. destruct o; [apply clean_ret|apply clean_raise]. Qed.

Lemma clean_getitem {A} r key (field : repo → option A) :
  clean (getitem r key field).
Proof.
  intros st. unfold getitem.
  destruct (repos_data st !! r) as [d|].
  - apply clean_or_raise.
  - exists []. split_and!; [apply frame_refl|apply fail_last_nil|done].
Qed.

Lemma clean_dict_get {A} r (field : repo → option A) :
  clean (dict_get r field).
Proof.
  intros st. exists []. split_and!; [apply frame_refl|apply fail_last_nil|done].
Qed.

Lemma clean_sealed_box_encrypt pk m : clean (sealed_box_encrypt pk m).
Proof.
  intros st. exists []. unfold sealed_box_encrypt.
  destruct (crypto_box_seal m pk (world st)) as [c w]. simpl.
  split_and!; [|apply fail_last_nil|done].
  unfold frame. simpl. by rewrite app_nil_r.
Qed.

Lemma clean_bind {A B} (c : M A) (k : A → M B) :
  clean c → (∀ a, clean (k a)) → clean (bind c k).
Proof.
  intros Hc Hk st. destruct (Hc st) as (l1 & Hf1 & Hl1 & Hs1).
  unfold bind. destruct (c st) as [[a|e] st1]; simpl in *.
  - destruct (Hk a st1) as (l2 & Hf2 & Hl2 & Hs2).
    exists (l1 ++ l2). split_and!.
    + by eapply frame_trans.
    + apply fail_last_app; auto.
    + intros Hok. apply Forall_app. auto.
  - exists l1. split_and!; [done|done|intros []].
Qed.

Lemma clean_for_each {A} (l : list A) (body : A → M unit) :
  (∀ x, clean (body x)) → clean (for_each l body).
Proof.
  intros Hb. induction l as [|x l IH]; simpl.
  - apply clean_ret.
  - apply clean_bind; auto.
Qed.

Lemma clean_intro {A} (c : M A) :
  (∀ st r st', c st = (r, st') →
     ∃ calls, frame st st' calls ∧ fail_last calls
              ∧ (is_ok r → Forall succeeded calls)) →
  clean c.
Proof. intros H st. destruct (c st) as [r st'] eqn:Hc. eauto. Qed.

Lemma clean_elim {A} (c : M A) st r st' :
  clean c → c st = (r, st') →
  ∃ calls, frame st st' calls ∧ fail_last calls
           ∧ (is_ok r → Forall succeeded calls).
Proof. intros H Hc. specialize (H st). by rewrite Hc in H. Qed.

(** A request followed by [raise_for_status], and whatever comes next. *)
Lemma clean_http_then {A} m url payload (k : response → M A) :
  (∀ r, clean (k r)) →
  clean (bind (http m url payload)
           (λ r, bind (raise_for_status r) (λ _, k r))).
Proof.
  intros Hk. apply clean_intro. intros st r st'. unfold bind at 1, http.
  destruct (requests_request _ (world st)) as [rs w] eqn:Hsend.
  set (rq := Request m url HEADERS payload) in *.
  set (st1 := State w _ _ _ _).
  assert (Hf : frame st st1 [(rq, rs)]) by done.
  destruct rs as [e0|code body].
  - intros [= <- <-]. exists [(rq, NoResponse e0)].
    split_and!; [done| |intros []].
    exists []. split; [done|]. right. by eexists.
  - unfold bind, raise_for_status, raise, ret.
    destruct (is_error_status code) eqn:Hcode.
    + intros [= <- <-]. exists [(rq, Response code body)].
      split_and!; [done| |intros []].
      exists []. split; [done|]. right. by eexists.
    + intros Hk1.
      destruct (clean_elim _ _ _ _ (Hk _) Hk1) as (l2 & Hf2 & Hl2 & Hs2).
      exists ([(rq, Response code body)] ++ l2).
      assert (Hs : Forall succeeded [(rq, Response code body)]).
      { apply Forall_singleton. done. }
      split_and!.
      * by eapply frame_trans.
      * by apply fail_last_app.
      * intros Hok. apply Forall_app. auto.
Qed.

Lemma clean_http m url payload :
  clean (bind (http m url payload) raise_for_status).
Proof.
  intros st.
  destruct (clean_http_then m url payload (λ _, ret tt)
              (λ _, clean_ret tt) st) as (l & Hl).
  exists l. revert Hl. unfold bind, http.
  destruct (requests_request _ (world st)) as [[e0|code body] w]; [done|]. simpl.
  unfold raise_for_status. by destruct (is_error_status code).
Qed.

End Monad.

Create HintDb clean.
#[local] Hint Resolve clean_ret clean_raise clean_or_raise clean_getitem
  clean_dict_get clean_sealed_box_encrypt : clean.

(** Cleanliness of a sequence of statements, one statement at a time. *)
Ltac clean_steps :=
  cbv zeta;
  repeat first
    [ solve [auto with clean]
    | apply clean_http
    | apply clean_http_then; intros ?
    | apply clean_bind; [|intros ?]
    | apply clean_for_each; intros ? ].

Section Functions.
Context `{E : Env}.

(** ** Every function of the script is clean *)

Lemma clean_create_repo name : clean (create_repo name).
Proof. apply clean_http. Qed.

Lemma clean_add_collaborator name user : clean (add_collaborator name user).
Proof. apply clean_http. Qed.

Lemma clean_read_pipeline_file pt : clean (read_pipeline_file pt).
Proof.
  unfold read_pipeline_file. destruct (files _); auto with clean.
Qed.

Lemma clean_create_pipeline name pt : clean (create_pipeline name pt).
Proof.
  destruct pt as [pt|]; simpl; [|auto with clean].
  pose proof (clean_read_pipeline_file pt). clean_steps.
Qed.

Lemma clean_response_json r : clean (response_json r).
Proof. destruct r as [|code [doc|e]]; simpl; auto with clean. Qed.

Lemma clean_get_public_key name : clean (get_public_key name).
Proof. apply clean_http_then, clean_response_json. Qed.

Lemma clean_PublicKey data : clean (PublicKey data).
Proof.
  unfold PublicKey. apply clean_bind; [auto with clean|].
  intros raw. destruct (decide _); auto with clean.
Qed.

Lemma clean_encrypt public_key secret_value :
  clean (encrypt public_key secret_value).
Proof.
  pose proof clean_PublicKey. unfold encrypt, encrypt_for. clean_steps.
Qed.

Lemma clean_set_repo_secrets name l : clean (set_repo_secrets name l).
Proof.
  pose proof clean_get_public_key. pose proof clean_encrypt.
  unfold set_repo_secrets.
  apply clean_bind; [done|]. intros doc.
  apply clean_bind; [auto with clean|]. intros pk.
  apply clean_for_each. intros [secret_name secret_value].
  clean_steps.
Qed.

Lemma clean_provision i : clean (provision i).
Proof.
  pose proof clean_create_repo. pose proof clean_add_collaborator.
  pose proof clean_create_pipeline. pose proof clean_set_repo_secrets.
  unfold provision. clean_steps.
Qed.

(** ** What a normal return tells about the calls *)

Lemma http_inv_ok m url payload st st' :
  bind (http m url payload) raise_for_status st = (Ok tt, st') →
  ∃ rs, frame st st' [(Request m url HEADERS payload, rs)].
Proof.
  unfold bind, http.
  destruct (requests_request _ (world st)) as [[e0|code body] w]; [done|].
  unfold raise_for_status. destruct (is_error_status code); [done|].
  intros [= <-]. by eexists.
Qed.

Lemma get_public_key_inv_ok name st doc st' :
  get_public_key name st = (Ok doc, st') →
  ∃ code,
    frame st st' [(get_public_key_request name, Response code (Ok doc))].
Proof.
  unfold get_public_key, requests_get, bind, http.
  destruct (requests_request _ (world st)) as [[e0|code body] w]; [done|].
  unfold raise_for_status. destruct (is_error_status code); [done|].
  destruct body as [d|e]; [|done]. intros [= <- <-]. by exists code.
Qed.

Lemma getitem_inv_ok {A} i key (field : repo → option A) st d a st' :
  repos_data st !! i = Some d →
  getitem i key field st = (Ok a, st') →
  st' = st ∧ field d = Some a.
Proof.
  unfold getitem. intros ->. by intros [Hf ->]%or_raise_inv_ok.
Qed.

Lemma getitem_eq {A} i key (field : repo → option A) st d :
  repos_data st !! i = Some d →
  getitem i key field st = or_raise (KeyError key) (field d) st.
Proof. unfold getitem. by intros ->. Qed.

Lemma getitem_ok {A} i key (field : repo → option A) st d a :
  repos_data st !! i = Some d → field d = Some a →
  getitem i key field st = (Ok a, st).
Proof. unfold getitem. by intros -> ->. Qed.

Lemma dict_get_ok {A} i (field : repo → option A) st d :
  repos_data st !! i = Some d → dict_get i field st = (Ok (field d), st).
Proof. unfold dict_get. by intros ->. Qed.

(** [encrypt] talks to nobody. *)
Lemma encrypt_frame public_key secret_value st :
  frame st (encrypt public_key secret_value st).2 [].
Proof.
  unfold encrypt, encrypt_for, PublicKey, sealed_box_encrypt, bind,
    or_raise, ret, raise.
  repeat (case_match; simplify_eq/=; try apply frame_refl);
    unfold frame; simpl; by rewrite app_nil_r.
Qed.

(** What [encrypt] returned is a sealed box of the secret, for the key
    the public key decodes to. *)
Lemma encrypt_inv_ok public_key secret_value st ev st' :
  encrypt public_key secret_value st = (Ok ev, st') →
  ∃ s raw,
    secret_value = Some s ∧ decodes_to public_key raw ∧ seals raw s ev.
Proof.
  unfold encrypt.
  intros (kb & ? & [Hkb ->]%or_raise_inv_ok & H)%bind_inv_ok.
  apply bind_inv_ok in H as (raw & s1 & Hpk & H).
  unfold PublicKey in Hpk.
  apply bind_inv_ok in Hpk as (raw' & ? & [Hraw ->]%or_raise_inv_ok & Hpk).
  destruct (decide (length raw' = 32)) as [Hlen|]; [|done].
  injection Hpk as -> <-.
  unfold encrypt_for in H.
  apply bind_inv_ok in H as (s & ? & [Hs ->]%or_raise_inv_ok & H).
  apply bind_inv_ok in H as (message & ? & [Hm ->]%or_raise_inv_ok & H).
  apply bind_inv_ok in H as (encrypted & s2 & Hbox & H).
  apply or_raise_inv_ok in H as [Hev _].
  unfold sealed_box_encrypt in Hbox.
  destruct (crypto_box_seal message raw (world st)) as [c w'] eqn:Hseal.
  injection Hbox as <- _.
  exists s, raw. split_and!; [done|by exists kb|].
  exists message, (world st). by rewrite Hseal.
Qed.

Lemma set_repo_secrets_inv_ok name st st' :
  set_repo_secrets name secrets st = (Ok tt, st') →
  ∃ kid ev1 ev2 rs0 rs1 rs2,
    frame st st'
      [ (get_public_key_request name, rs0);
        (set_secret_request name (lit "SECRET_KEY") ev1 kid, rs1);
        (set_secret_request name (lit "GH_TOKEN") ev2 kid, rs2) ]
    ∧ secrets_sealed rs0 kid ev1 ev2.
Proof.
  unfold set_repo_secrets, secrets. cbn [for_each].
  intros (doc & s1 & Hkey & H)%bind_inv_ok.
  apply get_public_key_inv_ok in Hkey as (code & Hf0).
  apply bind_inv_ok in H as (pk & ? & [Hpk ->]%or_raise_inv_ok & H).
  apply bind_inv_ok in H as ([] & s2 & H1 & H).
  apply bind_inv_ok in H as ([] & s3 & H2 & H).
  injection H as <-.
  apply bind_inv_ok in H1 as (ev1 & t1 & He1 & H1).
  apply bind_inv_ok in H1 as (kid & ? & [Hkid ->]%or_raise_inv_ok & H1).
  apply http_inv_ok in H1 as (rs1 & Hf1).
  apply bind_inv_ok in H2 as (ev2 & t2 & He2 & H2).
  apply bind_inv_ok in H2 as (kid' & ? & [Hkid' ->]%or_raise_inv_ok & H2).
  apply http_inv_ok in H2 as (rs2 & Hf2).
  assert (kid' = kid) as -> by congruence.
  pose proof (encrypt_frame pk (Some (lit "example_secret_value")) s1) as Hq1.
  pose proof (encrypt_frame pk GITHUB_TOKEN s2) as Hq2.
  rewrite He1 in Hq1. rewrite He2 in Hq2. simpl in Hq1, Hq2.
  apply encrypt_inv_ok in He1 as (x1 & raw & [= <-] & Hraw & Hseal1).
  apply encrypt_inv_ok in He2 as (token & raw' & Htok & Hraw' & Hseal2).
  assert (raw' = raw) as ->.
  { destruct Hraw as (kb & Hkb & Hb & _), Hraw' as (kb' & Hkb' & Hb' & _).
    congruence. }
  exists kid, ev1, ev2, (Response code (Ok doc)), rs1, rs2. split.
  - exact (frame_trans _ _ _ _ _ Hf0
             (frame_trans _ _ _ _ _ Hq1
                (frame_trans _ _ _ _ _ Hf1
                   (frame_trans _ _ _ _ _ Hq2 Hf2)))).
  - exists code, pk, raw, token. destruct doc as [k0 kid0].
    simpl in Hpk, Hkid. by subst.
Qed.

Lemma create_pipeline_inv_ok name pto st st' :
  create_pipeline name pto st = (Ok tt, st') →
  ∃ pt encoded rs,
    pto = Some pt ∧ encoded_template pt encoded
    ∧ frame st st' [(create_pipeline_request name pt encoded, rs)].
Proof.
  destruct pto as [pt|]; [|done]. unfold create_pipeline, read_pipeline_file.
  intros (text & ? & Hfile & H)%bind_inv_ok.
  destruct (files (pt ++ lit ".yml")) as [text'|] eqn:Hfiles; [|done].
  injection Hfile as -> <-.
  apply bind_inv_ok in H as (content & ? & [Hc ->]%or_raise_inv_ok & H).
  apply bind_inv_ok in H as (encoded & ? & [He ->]%or_raise_inv_ok & H).
  apply http_inv_ok in H as (rs & Hf).
  exists pt, encoded, rs. split_and!; [done| |done].
  exists text, content. done.
Qed.

Lemma collaborators_inv_ok i d name users st st' :
  repos_data st !! i = Some d → repo_name d = Some name →
  for_each users (λ user,
      name <- getitem i (lit "repo-name") repo_name ;;
      add_collaborator name user) st = (Ok tt, st') →
  ∃ calls, frame st st' calls
           ∧ calls.*1 = (add_collaborator_request name <$> users).
Proof.
  intros Hd Hname. revert st Hd.
  induction users as [|user users IH]; intros st Hd; simpl.
  - intros [= <-]. exists []. split; [apply frame_refl|done].
  - intros ([] & s1 & H1 & H)%bind_inv_ok.
    apply bind_inv_ok in H1 as (name' & ? & Hn & H1).
    apply (getitem_inv_ok _ _ _ _ d) in Hn as [-> Hn]; [|done].
    assert (name' = name) as -> by congruence.
    apply http_inv_ok in H1 as (rs & Hf1).
    assert (Hd1 : repos_data s1 !! i = Some d)
      by (by rewrite (frame_lookup _ _ _ _ Hf1)).
    destruct (IH s1 Hd1 H) as (l & Hf & Hl).
    eexists. split; [by eapply frame_trans|]. rewrite fmap_app, Hl. done.
Qed.

Lemma provision_inv_ok i d st st' :
  repos_data st !! i = Some d →
  provision i st = (Ok tt, st') →
  ∃ calls name users pt encoded kid ev1 ev2,
    frame st st' calls
    ∧ repo_name d = Some name ∧ repo_users d = Some users
    ∧ pipeline_type d = Some pt ∧ encoded_template pt encoded
    ∧ calls.*1 =
        create_repo_request name
        :: (add_collaborator_request name <$> users)
        ++ [ create_pipeline_request name pt encoded;
             get_public_key_request name;
             set_secret_request name (lit "SECRET_KEY") ev1 kid;
             set_secret_request name (lit "GH_TOKEN") ev2 kid ]
    ∧ ∃ pre rs4 c5 c6,
        calls = pre ++ [(get_public_key_request name, rs4); c5; c6]
        ∧ secrets_sealed rs4 kid ev1 ev2.
Proof.
  intros Hd. unfold provision.
  intros (name & ? & Hn & H)%bind_inv_ok.
  apply (getitem_inv_ok _ _ _ _ d) in Hn as [-> Hname]; [|done].
  apply bind_inv_ok in H as ([] & s1 & H1 & H).
  apply http_inv_ok in H1 as (rs1 & Hf1).
  assert (Hd1 : repos_data s1 !! i = Some d).
  { by rewrite (frame_lookup _ _ _ _ Hf1). }
  apply bind_inv_ok in H as (users & ? & Hu & H).
  apply (getitem_inv_ok _ _ _ _ d) in Hu as [-> Husers]; [|done].
  apply bind_inv_ok in H as ([] & s2 & H2 & H).
  eapply collaborators_inv_ok in H2 as (l2 & Hf2 & Hl2); [|done..].
  assert (Hd2 : repos_data s2 !! i = Some d).
  { by rewrite (frame_lookup _ _ _ _ Hf2). }
  apply bind_inv_ok in H as (name' & ? & Hn & H).
  apply (getitem_inv_ok _ _ _ _ d) in Hn as [-> Hname']; [|done].
  assert (name' = name) as -> by congruence. clear Hname'.
  apply bind_inv_ok in H as (pto & ? & Hpt & H).
  injection Hpt as <- <-. rewrite Hd2 in H. simpl in H.
  apply bind_inv_ok in H as ([] & s3 & H3 & H).
  apply create_pipeline_inv_ok in H3 as (pt & encoded & rs3 & Hpt & Henc & Hf3).
  assert (Hd3 : repos_data s3 !! i = Some d).
  { by rewrite (frame_lookup _ _ _ _ Hf3). }
  apply bind_inv_ok in H as (name' & ? & Hn & H).
  apply (getitem_inv_ok _ _ _ _ d) in Hn as [-> Hname']; [|done].
  assert (name' = name) as -> by congruence. clear Hname'.
  apply set_repo_secrets_inv_ok in H
    as (kid & ev1 & ev2 & rs4 & rs5 & rs6 & Hf4 & Hsealed).
  eexists _, name, users, pt, encoded, kid, ev1, ev2.
  split_and!; [|done..| |].
  - eapply frame_trans; [exact Hf1|].
    eapply frame_trans; [exact Hf2|].
    eapply frame_trans; [exact Hf3|exact Hf4].
  - rewrite !fmap_app, Hl2. simpl. done.
  - eexists ((create_repo_request name, rs1) :: l2
             ++ [(create_pipeline_request name pt encoded, rs3)]),
            rs4, _, _.
    split; [|exact Hsealed]. simpl. by rewrite <- app_assoc.
Qed.

(** ** The first call of an entry is the create call *)

Lemma create_repo_frame name st :
  ∃ rs, frame st (create_repo name st).2 [(create_repo_request name, rs)].
Proof.
  unfold create_repo, requests_post, bind, http.
  destruct (requests_request _ (world st)) as [[e0|code body] w]; [by eexists|].
  unfold raise_for_status. destruct (is_error_status code); by eexists.
Qed.

Lemma bind_head {A B} (c : M A) (k : A → M B) st rq x rest :
  (∃ rs, frame st (c st).2 [(rq, rs)]) → (∀ a, clean (k a)) →
  frame st (bind c k st).2 (x :: rest) → x.1 = rq.
Proof.
  intros [rs Hc] Hk. unfold bind.
  destruct (c st) as [[a|e] s1]; simpl in *; intros Hf.
  - destruct (Hk a s1) as (l2 & Hf2 & _).
    pose proof (frame_trans _ _ _ _ _ Hc Hf2) as Hf'.
    by injection (frame_unique _ _ _ _ Hf Hf') as ->.
  - by injection (frame_unique _ _ _ _ Hf Hc) as ->.
Qed.

Lemma provision_head i d st c rest :
  repos_data st !! i = Some d →
  frame st (provision i st).2 (c :: rest) →
  ∃ name, repo_name d = Some name ∧ c.1 = create_repo_request name.
Proof.
  intros Hd. unfold provision. unfold bind at 1.
  rewrite (getitem_eq _ _ _ _ _ Hd).
  destruct (repo_name d) as [name|]; simpl.
  - intros Hf. exists name. split; [done|].
    eapply bind_head; [apply create_repo_frame| |exact Hf].
    intros []. cbv beta. pose proof clean_add_collaborator.
    pose proof clean_create_pipeline. pose proof clean_set_repo_secrets.
    clean_steps.
  - intros Hf. by pose proof (frame_unique _ _ _ _ Hf (frame_refl st)).
Qed.

(** ** An entry without a template uploads nothing *)

Lemma create_pipeline_without_template name d st :
  no_template d →
  ∃ e, create_pipeline name (pipeline_type d) st = (Raise e, st).
Proof.
  unfold no_template, create_pipeline, read_pipeline_file.
  destruct (pipeline_type d) as [pt|]; [|by eexists].
  intros ->. by eexists.
Qed.

Lemma collaborators_frame i (users : list str) st :
  ∃ calls,
    frame st (for_each users (λ user,
                name <- getitem i (lit "repo-name") repo_name ;;
                add_collaborator name user) st).2 calls
    ∧ Forall (λ c : call, ¬ uploads_file c.1) calls.
Proof.
  revert st. induction users as [|user users IH]; intros st; simpl.
  - exists []. split; [apply frame_refl|done].
  - unfold bind at 1. unfold bind at 1.
    destruct (getitem i (lit "repo-name") repo_name st)
      as [[name'|e] s0] eqn:Hg.
    + assert (s0 = st) as ->.
      { revert Hg. unfold getitem. destruct (repos_data st !! i); [|done].
        by intros [_ ->]%or_raise_inv_ok. }
      assert (Hone : ∃ rs, frame st (add_collaborator name' user st).2
                             [(add_collaborator_request name' user, rs)]).
      { unfold add_collaborator, requests_put, bind, http.
        destruct (requests_request _ (world st)) as [[e0|code body] w]; [by eexists|].
        unfold raise_for_status. destruct (is_error_status code); by eexists. }
      destruct Hone as [rs Hone].
      assert (Hnot : ¬ uploads_file (add_collaborator_request name' user)).
      { by intros (? & ? & ? & ?). }
      destruct (add_collaborator name' user st) as [[[]|e] s1]; simpl in *.
      * destruct (IH s1) as (l & Hf & Hl). eexists. split.
        -- eapply frame_trans; [exact Hone|exact Hf].
        -- by apply Forall_cons.
      * eexists. split; [exact Hone|]. by apply Forall_singleton.
    + exists []. split; [|done].
      revert Hg. unfold getitem, or_raise.
      destruct (repos_data st !! i) as [d|]; [destruct (repo_name d)|];
        intros [= <- <-]; apply frame_refl.
Qed.

Lemma provision_without_template i d st calls :
  repos_data st !! i = Some d → no_template d →
  frame st (provision i st).2 calls →
  Forall (λ c : call, ¬ uploads_file c.1) calls.
Proof.
  intros Hd Hno. unfold provision.
  destruct (repo_name d) as [name|] eqn:Hname.
  2: { unfold bind at 1. rewrite (getitem_eq _ _ _ _ _ Hd), Hname. simpl.
       intros Hf. by rewrite (frame_unique _ _ _ _ Hf (frame_refl st)). }
  rewrite (bind_ok _ _ _ _ _ (getitem_ok _ _ _ _ _ _ Hd Hname)).
  destruct (create_repo_frame name st) as [rs1 Hf1].
  assert (Hnot : ¬ uploads_file (create_repo_request name)).
  { by intros (? & ? & ? & ?). }
  destruct (create_repo name st) as [[[]|e] s1] eqn:H1; simpl in Hf1.
  2: { rewrite (bind_raise _ _ _ _ _ H1). simpl. intros Hf.
       rewrite (frame_unique _ _ _ _ Hf Hf1). by apply Forall_singleton. }
  rewrite (bind_ok _ _ _ _ _ H1).
  assert (Hd1 : repos_data s1 !! i = Some d)
    by (by rewrite (frame_lookup _ _ _ _ Hf1)).
  destruct (repo_users d) as [users|] eqn:Husers.
  2: { unfold bind at 1. rewrite (getitem_eq _ _ _ _ _ Hd1), Husers. simpl.
       intros Hf.
       rewrite (frame_unique _ _ _ _ Hf Hf1). by apply Forall_singleton. }
  rewrite (bind_ok _ _ _ _ _ (getitem_ok _ _ _ _ _ _ Hd1 Husers)).
  destruct (collaborators_frame i users s1) as (l2 & Hf2 & Hl2).
  pose proof (frame_trans _ _ _ _ _ Hf1 Hf2) as Hf12.
  destruct (for_each users _ s1) as [[[]|e] s2] eqn:H2; simpl in Hf2, Hf12.
  2: { rewrite (bind_raise _ _ _ _ _ H2). simpl. intros Hf.
       rewrite (frame_unique _ _ _ _ Hf Hf12). by apply Forall_cons. }
  rewrite (bind_ok _ _ _ _ _ H2).
  assert (Hd2 : repos_data s2 !! i = Some d)
    by (by rewrite (frame_lookup _ _ _ _ Hf2)).
  rewrite (bind_ok _ _ _ _ _ (getitem_ok _ _ _ _ _ _ Hd2 Hname)).
  rewrite (bind_ok _ _ _ _ _ (dict_get_ok _ _ _ _ Hd2)).
  destruct (create_pipeline_without_template name d s2 Hno) as [e He].
  rewrite (bind_raise _ _ _ _ _ He). simpl. intros Hf.
  rewrite (frame_unique _ _ _ _ Hf Hf12). by apply Forall_cons.
Qed.

(** ** The calls of one entry in the log *)

Lemma calls_for_app i l1 l2 :
  calls_for i (l1 ++ l2) = calls_for i l1 ++ calls_for i l2.
Proof. apply omap_app. Qed.

Lemma calls_for_tag i j (l : list call) :
  calls_for j (tag i <$> l) = if decide (i = j) then l else [].
Proof.
  induction l as [|[rq rs] l IH].
  - by destruct (decide _).
  - change (calls_for j (tag i <$> (rq, rs) :: l))
      with (match (if decide (i = j) then Some (rq, rs) else None) with
            | Some y => y :: calls_for j (tag i <$> l)
            | None => calls_for j (tag i <$> l)
            end).
    rewrite IH. by destruct (decide (i = j)).
Qed.

(** ** One iteration of the loop *)

Lemma outcome_refl d : outcome d d [].
Proof.
  unfold outcome. destruct (decide _); [|done]. right. split; [done|].
  split_and!; [apply fail_last_nil|by intros ??|by intros _].
Qed.

Lemma for_body_spec i d st r st' :
  repos_data st !! i = Some d → for_body i st = (r, st') →
  ∃ d' calls,
    repos_json st' = repos_json st
    ∧ length (repos_data st') = length (repos_data st)
    ∧ repos_data st' !! i = Some d'
    ∧ (∀ j, j ≠ i → repos_data st' !! j = repos_data st !! j)
    ∧ log st' = log st ++ (tag i <$> calls)
    ∧ outcome d d' calls
    ∧ (∀ e, r = Raise e → is_request_exception e = false).
Proof.
  intros Hd. unfold for_body, enter. unfold bind at 1.
  set (s0 := State (world st) (repos_data st) (repos_json st) (log st) i).
  assert (Hd0 : repos_data s0 !! i = Some d) by done.
  unfold bind at 1. rewrite (getitem_eq _ _ _ _ _ Hd0).
  assert (Hskip :
    repos_json s0 = repos_json st
    ∧ length (repos_data s0) = length (repos_data st)
    ∧ repos_data s0 !! i = Some d
    ∧ (∀ j, j ≠ i → repos_data s0 !! j = repos_data st !! j)
    ∧ log s0 = log st ++ (tag i <$> [])).
  { simpl. by rewrite app_nil_r. }
  destruct Hskip as (? & ? & ? & ? & ?).
  destruct (status d) as [s|] eqn:Hs; simpl.
  - destruct (decide (s = lit "need-to-create")) as [->|Hne].
    + unfold try_except_RequestException, try_body, bind, setitem_status.
      destruct (provision i s0) as [[[]|e] s1] eqn:Hp.
      * destruct (clean_elim _ _ _ _ (clean_provision i) Hp)
          as (calls & Hf & _ & Hok).
        destruct (provision_inv_ok _ _ _ _ Hd0 Hp)
          as (calls' & name & users & pt & enc & kid & ev1 & ev2 & Hf'
              & Hn & Hu & Hpt & Henc & Hshape & _).
        pose proof (frame_unique _ _ _ _ Hf' Hf) as ->.
        destruct Hf as (Hdata & Hjson & Hcur & Hlog).
        intros [= <- <-]. exists (set_status (lit "created") d), calls.
        simpl. rewrite Hdata, Hjson, Hlog. simpl.
        split_and!; [done|by rewrite length_alter| | |done| |done].
        -- by rewrite list_lookup_alter_eq, Hd.
        -- intros j Hj. by rewrite list_lookup_alter_ne.
        -- unfold outcome. rewrite Hs, decide_True by done. left.
           split; [done|]. exists name, users, pt, enc, kid, ev1, ev2.
           split_and!; [done..|by apply Hok].
      * destruct (clean_elim _ _ _ _ (clean_provision i) Hp)
          as (calls & Hf & Hlast & _).
        assert (Hab : aborted d calls).
        { split_and!; [done| |].
          - intros c rest ->.
            eapply provision_head; [exact Hd0|]. by rewrite Hp.
          - intros Hno.
            eapply provision_without_template; [exact Hd0|done|].
            by rewrite Hp. }
        destruct Hf as (Hdata & Hjson & Hcur & Hlog).
        intros Hr. exists d, calls.
        assert (st' = s1) as ->
          by (by destruct (is_request_exception e); injection Hr).
        rewrite Hdata, Hjson, Hlog. simpl.
        split_and!; [done..| |].
        -- unfold outcome. rewrite Hs, decide_True by done. by right.
        -- intros e' ->.
           destruct (is_request_exception e) eqn:He; [done|].
           by injection Hr as <-.
    + intros [= <- <-].
      exists d, []. split_and!; [done..| |done].
      unfold outcome. rewrite Hs, decide_False by congruence. done.
  - intros [= <- <-].
    exists d, []. split_and!; [done..| |by intros ? [= <-]].
    unfold outcome. rewrite Hs, decide_False by congruence. done.
Qed.

(** ** The loop and the run *)

Lemma loop_spec n : ∀ k st r st',
  for_each (seq k n) for_body st = (r, st') →
  k + n ≤ length (repos_data st) →
  repos_json st' = repos_json st
  ∧ length (repos_data st') = length (repos_data st)
  ∧ (∀ e, r = Raise e → is_request_exception e = false)
  ∧ ∀ j d, repos_data st !! j = Some d →
      ∃ d' calls,
        repos_data st' !! j = Some d'
        ∧ calls_for j (log st') = calls_for j (log st) ++ calls
        ∧ outcome d d' calls
        ∧ (j < k → d' = d ∧ calls = []).
Proof.
  induction n as [|n IH]; intros k st r st'; simpl.
  - intros [= <- <-] _. split_and!; [done..|].
    intros j d Hj. exists d, []. rewrite app_nil_r.
    split_and!; [done..|apply outcome_refl|done].
  - intros Hrun Hlen.
    destruct (lookup_lt_is_Some_2 (repos_data st) k) as [dk Hk]; [lia|].
    unfold bind in Hrun.
    destruct (for_body k st) as [[[]|e] s1] eqn:Hb;
      destruct (for_body_spec _ _ _ _ _ Hk Hb)
        as (d1 & calls1 & Hjson1 & Hlen1 & Hk1 & Hother1 & Hlog1 & Hout1 & He1).
    + destruct (IH (S k) s1 r st' Hrun) as (Hjson & Hlen' & He & Hent);
        [lia|].
      split_and!; [congruence|congruence|done|].
      intros j d Hj. destruct (decide (j = k)) as [->|Hjk].
      * assert (d = dk) as -> by congruence.
        destruct (Hent k d1 Hk1) as (d' & calls & Hd' & Hcalls & _ & Hsame).
        destruct Hsame as [-> ->]; [lia|].
        exists d1, calls1. rewrite Hcalls, Hlog1, calls_for_app, calls_for_tag.
        rewrite decide_True, app_nil_r by done.
        split_and!; [done..|lia].
      * rewrite <- Hother1 in Hj by done.
        destruct (Hent j d Hj) as (d' & calls & Hd' & Hcalls & Hout & Hsame).
        exists d', calls. rewrite Hcalls, Hlog1, calls_for_app, calls_for_tag.
        rewrite decide_False, app_nil_r by done.
        split_and!; [done..|]. intros ?. apply Hsame. lia.
    + injection Hrun as <- <-.
      split_and!; [done|done|by intros ? [= <-]; apply He1|].
      intros j d Hj. rewrite Hlog1, calls_for_app, calls_for_tag.
      destruct (decide (k = j)) as [<-|Hjk].
      * assert (d = dk) as -> by congruence. exists d1, calls1.
        split_and!; [done..|lia].
      * exists d, []. rewrite Hother1 by done.
        split_and!; [done..|apply outcome_refl|done].
Qed.

(** What a run does, entry by entry.  When [main] returns, the file holds
    the list in memory; when it raises, the file is as it was and the
    exception is not a [RequestException]. *)
Lemma run_spec w repos r st' :
  run w repos = (r, st') →
  length (repos_data st') = length repos
  ∧ (∀ i d, repos !! i = Some d →
       ∃ d', repos_data st' !! i = Some d'
             ∧ outcome d d' (calls_for i (log st')))
  ∧ match r with
    | Ok _ => repos_json st' = repos_data st'
    | Raise e => repos_json st' = repos ∧ is_request_exception e = false
    end.
Proof.
  unfold run, main, initial, json_load. unfold bind at 1. simpl.
  set (s0 := State w repos repos [] 0). unfold bind, json_dump.
  destruct (for_each _ for_body s0) as [[[]|e] s1] eqn:Hloop;
    destruct (loop_spec _ _ _ _ _ Hloop) as (Hjson & Hlen & He & Hent);
    try (simpl; lia); intros [= <- <-]; simpl.
  - split_and!; [done| |done].
    intros i d Hi. destruct (Hent i d Hi) as (d' & calls & ? & Hc & ? & _).
    exists d'. by rewrite Hc.
  - split_and!; [done| |done|by auto].
    intros i d Hi. destruct (Hent i d Hi) as (d' & calls & ? & Hc & ? & _).
    exists d'. by rewrite Hc.
Qed.

(** ** Entries that need nothing *)

Lemma for_each_app {A} (l1 l2 : list A) (body : A → M unit) st :
  for_each (l1 ++ l2) body st
  = bind (for_each l1 body) (λ _, for_each l2 body) st.
Proof.
  revert st. induction l1 as [|x l1 IH]; intros st; simpl; [done|].
  unfold bind. destruct (body x st) as [[[]|e] s1]; [|done].
  by rewrite IH.
Qed.

Lemma for_body_skip i d s st :
  repos_data st !! i = Some d → status d = Some s →
  s ≠ lit "need-to-create" →
  for_body i st
  = (Ok tt, State (world st) (repos_data st) (repos_json st) (log st) i).
Proof.
  intros Hd Hs Hne. unfold for_body, enter. unfold bind at 1.
  unfold bind. erewrite getitem_eq by exact Hd. rewrite Hs. simpl.
  by rewrite decide_False.
Qed.

Lemma loop_skip n : ∀ k st,
  k + n ≤ length (repos_data st) →
  (∀ d, d ∈ repos_data st →
        ∃ s, status d = Some s ∧ s ≠ lit "need-to-create") →
  ∃ c, for_each (seq k n) for_body st
       = (Ok tt, State (world st) (repos_data st) (repos_json st) (log st) c).
Proof.
  induction n as [|n IH]; intros k st Hlen Hall; simpl.
  - exists (current st). by destruct st.
  - destruct (lookup_lt_is_Some_2 (repos_data st) k) as [d Hd]; [lia|].
    destruct (Hall d) as (s & Hs & Hne); [by eapply list_elem_of_lookup_2|].
    unfold bind. rewrite (for_body_skip _ _ _ _ Hd Hs Hne).
    destruct (IH (S k) (State (world st) (repos_data st) (repos_json st)
                          (log st) k)) as [c Hc]; [simpl; lia|done|].
    exists c. by rewrite Hc.
Qed.

(** [try_body] raises exactly when [provision] does. *)
Lemma try_body_raise i st e st1 :
  try_body i st = (Raise e, st1) → provision i st = (Raise e, st1).
Proof.
  unfold try_body, bind. by destruct (provision i st) as [[[]|e'] s1].
Qed.

(** ** The headers of the script *)

Lemma no_line_break_cons c s :
  no_line_break (c :: s) = negb (is_line_break c) && no_line_break s.
Proof. done. Qed.

Lemma no_line_break_app s1 s2 :
  no_line_break (s1 ++ s2) = no_line_break s1 && no_line_break s2.
Proof. apply forallb_app. Qed.

Lemma latin1_app s1 s2 : latin1 (s1 ++ s2) = latin1 s1 && latin1 s2.
Proof. apply forallb_app. Qed.

Lemma before_final_lf_id s :
  no_line_break s = true → before_final_lf s = s.
Proof.
  induction s as [|c r IH]; [done|].
  unfold no_line_break. cbn [forallb]. fold (no_line_break r).
  intros [Hc Hr]%andb_true_iff. cbn [before_final_lf].
  destruct r as [|n r'].
  - unfold is_line_break in Hc. by destruct (c =? 10)%N.
  - by rewrite IH.
Qed.

Lemma illegal_header_value_no_line_break s :
  no_line_break s = true → illegal_header_value s = false.
Proof.
  induction s as [|c r IH]; [done|].
  unfold no_line_break. cbn [forallb]. fold (no_line_break r).
  intros [Hc Hr]%andb_true_iff. cbn [illegal_header_value].
  rewrite (IH Hr), orb_false_r.
  apply negb_true_iff in Hc. destruct r as [|n r']; [done|].
  unfold is_line_break in Hc. apply orb_false_iff in Hc as [-> ->]. done.
Qed.

Lemma header_value_passes v :
  no_line_break v = true → latin1 v = true →
  match v with [] => True | c :: _ => isspace c = false end →
  valid_header_value v = true
  ∧ negb (latin1 v) = false ∧ illegal_header_value v = false.
Proof.
  intros Hlb Hl1 Hc. split_and!.
  - unfold valid_header_value. rewrite (before_final_lf_id _ Hlb).
    destruct v as [|c r]; [done|]. rewrite Hc. simpl.
    unfold no_line_break in Hlb. cbn [forallb] in Hlb.
    by apply andb_true_iff in Hlb as [_ ?].
  - by rewrite Hl1.
  - by apply illegal_header_value_no_line_break.
Qed.

Lemma headers_pass_intro v :
  fmt GITHUB_TOKEN = v → header_safe v = true → headers_pass.
Proof.
  intros Hv [Hl1 Hlb]%andb_true_iff.
  assert (Hlit : lit "token " = [116; 111; 107; 101; 110; 32]%N)
    by (by vm_compute).
  destruct (header_value_passes (lit "token " ++ v)) as (Ha1 & Ha2 & Ha3).
  { rewrite no_line_break_app, Hlb. by vm_compute. }
  { rewrite latin1_app, Hl1. by vm_compute. }
  { by rewrite Hlit. }
  destruct (header_value_passes (lit "application/vnd.github.v3+json"))
    as (Hb1 & Hb2 & Hb3); [by vm_compute..|].
  unfold headers_pass, check_header_validity, HEADERS. rewrite Hv.
  cbn [forallb putheaders snd].
  by rewrite Ha1, Ha2, Ha3, Hb1, Hb2, Hb3.
Qed.

Lemma headers_pass_token token :
  GITHUB_TOKEN = Some token → header_safe token = true → headers_pass.
Proof. intros Htok. apply headers_pass_intro. by rewrite Htok. Qed.

Lemma headers_pass_without_token : GITHUB_TOKEN = None → headers_pass.
Proof.
  intros Htok. apply (headers_pass_intro (lit "None")); [by rewrite Htok|].
  by vm_compute.
Qed.

(** With headers that pass, a call comes to what the transport brings
    back. *)
Lemma requests_request_pass m url payload w :
  headers_pass →
  (requests_request (Request m url HEADERS payload) w).1
  = match (send (Request m url HEADERS payload) w).1 with
    | None => NoResponse ConnectionError
    | Some (code, body) => Response code body
    end.
Proof.
  intros [Hc Hp]. unfold requests_request. cbn [headers]. rewrite Hc, Hp.
  by destruct (send _ w) as [[[code body]|] w'].
Qed.

Lemma calls_succeed_intro : remote_succeeds → headers_pass → calls_succeed.
Proof.
  intros Hrem Hpass m url payload w.
  destruct (Hrem (Request m url HEADERS payload) w)
    as (code & body & Hs & Hc & Hdoc).
  exists code, body. rewrite (requests_request_pass _ _ _ _ Hpass), Hs.
  done.
Qed.


(** ** Running forward, when nothing goes wrong *)

(** What [encrypt] returns for a key that decodes and a secret that
    encodes. *)
Lemma encrypt_ok public_key raw secret_value message st :
  decodes_to public_key raw → utf8_encode secret_value = Some message →
  encrypt public_key (Some secret_value) st
  = (Ok (Byte.to_N <$> b64encode (crypto_box_seal message raw (world st)).1),
     State (crypto_box_seal message raw (world st)).2
           (repos_data st) (repos_json st) (log st) (current st)).
Proof.
  intros (kb & Hkb & Hraw & Hlen) Hm.
  unfold encrypt, encrypt_for, PublicKey, sealed_box_encrypt, bind.
  rewrite Hkb. simpl. rewrite Hraw. simpl.
  rewrite decide_True by done. simpl. rewrite Hm. simpl.
  destruct (crypto_box_seal message raw (world st)) as [c w']. simpl.
  by rewrite (utf8_decode_ascii _ (b64encode_ascii c)).
Qed.

Lemma http_succeeds m url payload st :
  calls_succeed →
  ∃ st', bind (http m url payload) raise_for_status st = (Ok tt, st').
Proof.
  intros Hrem. unfold bind, http.
  destruct (Hrem m url payload (world st)) as (code & body & Hs & Hc & _).
  destruct (requests_request _ (world st)) as [rs w]. simpl in Hs. subst rs.
  unfold raise_for_status. rewrite Hc. by eexists.
Qed.

Lemma requests_put_succeeds url payload st :
  calls_succeed →
  ∃ st', (response <- requests_put url payload ;;
          raise_for_status response) st = (Ok tt, st').
Proof. apply http_succeeds. Qed.

Lemma requests_post_succeeds url payload st :
  calls_succeed →
  ∃ st', (response <- requests_post url payload ;;
          raise_for_status response) st = (Ok tt, st').
Proof. apply http_succeeds. Qed.

Lemma get_public_key_succeeds name st :
  calls_succeed →
  ∃ k kid raw st',
    get_public_key name st = (Ok (PublicKeyInfo (Some k) (Some kid)), st')
    ∧ decodes_to k raw.
Proof.
  intros Hrem. unfold get_public_key, requests_get, bind, http.
  match goal with |- context [requests_request (Request ?m ?u _ ?p) _] =>
    destruct (Hrem m u p (world st)) as (code & body & Hs & Hc & Hdoc) end.
  destruct (Hdoc eq_refl) as (k & kid & raw & -> & Hk).
  destruct (requests_request _ (world st)) as [rs w]. simpl in Hs. subst rs.
  unfold raise_for_status. rewrite Hc. simpl. by eexists k, kid, raw, _.
Qed.

Lemma set_repo_secrets_succeeds name token token_bytes st :
  calls_succeed →
  GITHUB_TOKEN = Some token → utf8_encode token = Some token_bytes →
  ∃ st', set_repo_secrets name secrets st = (Ok tt, st').
Proof.
  intros Hrem Htok Htb. unfold set_repo_secrets, secrets. rewrite Htok.
  destruct (get_public_key_succeeds name st Hrem)
    as (k & kid & raw & s1 & Hkey & Hk).
  rewrite (bind_ok _ _ _ _ _ Hkey). simpl. unfold bind at 1. simpl.
  cbn [for_each].
  assert (Hex : ∃ mb, utf8_encode (lit "example_secret_value") = Some mb)
    by (by eexists; vm_compute).
  destruct Hex as [mb Hmb].
  unfold bind at 1. unfold bind at 1.
  rewrite (encrypt_ok _ _ _ _ s1 Hk Hmb). unfold bind at 1. simpl.
  match goal with |- context [bind (requests_put ?u ?p) _ ?s] =>
    destruct (requests_put_succeeds u p s Hrem) as [s2 H2] end.
  rewrite H2.
  unfold bind at 1. unfold bind at 1.
  rewrite (encrypt_ok _ _ _ _ s2 Hk Htb). unfold bind at 1. simpl.
  match goal with |- context [bind (requests_put ?u ?p) _ ?s] =>
    destruct (requests_put_succeeds u p s Hrem) as [s3 H3] end.
  rewrite H3. by eexists.
Qed.

Lemma create_pipeline_succeeds name pt text content st :
  calls_succeed →
  files (pt ++ lit ".yml") = Some text → utf8_encode text = Some content →
  ∃ st', create_pipeline name (Some pt) st = (Ok tt, st').
Proof.
  intros Hrem Hfile Hc. unfold create_pipeline, read_pipeline_file.
  rewrite Hfile. unfold bind at 1. simpl. rewrite Hc.
  unfold bind at 1. simpl.
  rewrite (utf8_decode_ascii _ (b64encode_ascii content)).
  unfold bind at 1. simpl. by apply requests_put_succeeds.
Qed.

Lemma collaborators_succeed i d name users st :
  calls_succeed →
  repos_data st !! i = Some d → repo_name d = Some name →
  ∃ st', for_each users (λ user,
             name <- getitem i (lit "repo-name") repo_name ;;
             add_collaborator name user) st = (Ok tt, st')
         ∧ repos_data st' = repos_data st.
Proof.
  intros Hrem Hd Hname. revert st Hd.
  induction users as [|user users IH]; intros st Hd; simpl.
  - by exists st.
  - unfold bind at 1. unfold bind at 1.
    erewrite getitem_eq by exact Hd. rewrite Hname. simpl.
    destruct (requests_put_succeeds
      (GITHUB_API_URL ++ lit "/repos/" ++ fmt ORG_NAME ++ lit "/"
       ++ name ++ lit "/collaborators/" ++ user)
      [ (lit "permission", JStr (lit "push")) ] st Hrem) as [s1 H1].
    unfold add_collaborator. rewrite H1.
    destruct (clean_elim _ _ _ _ (clean_http _ _ _) H1) as (l & Hf & _).
    destruct (IH s1) as (st' & Hrest & Hdata).
    { by rewrite (frame_lookup _ _ _ _ Hf). }
    exists st'. split; [done|]. rewrite Hdata. by destruct Hf.
Qed.

Lemma provision_succeeds i d name users pt text content token token_bytes
    st :
  calls_succeed →
  GITHUB_TOKEN = Some token → utf8_encode token = Some token_bytes →
  repos_data st !! i = Some d →
  repo_name d = Some name → repo_users d = Some users →
  pipeline_type d = Some pt →
  files (pt ++ lit ".yml") = Some text → utf8_encode text = Some content →
  ∃ st', provision i st = (Ok tt, st').
Proof.
  intros Hrem Htok Htb Hd Hname Husers Hpt Hfile Hc. unfold provision.
  rewrite (bind_ok _ _ _ _ _ (getitem_ok _ _ _ _ _ _ Hd Hname)).
  destruct (requests_post_succeeds
    (GITHUB_API_URL ++ lit "/orgs/" ++ fmt ORG_NAME ++ lit "/repos")
    [ (lit "name", JStr name); (lit "private", JBool true) ] st Hrem)
    as [s1 H1].
  destruct (clean_elim _ _ _ _ (clean_http _ _ _) H1) as (l1 & Hf1 & _).
  assert (Hd1 : repos_data s1 !! i = Some d)
    by (by rewrite (frame_lookup _ _ _ _ Hf1)).
  rewrite (bind_ok (create_repo name) _ _ _ _ H1).
  rewrite (bind_ok _ _ _ _ _ (getitem_ok _ _ _ _ _ _ Hd1 Husers)).
  destruct (collaborators_succeed i d name users s1 Hrem Hd1 Hname)
    as (s2 & H2 & Hdata2).
  assert (Hd2 : repos_data s2 !! i = Some d) by (by rewrite Hdata2).
  rewrite (bind_ok _ _ _ _ _ H2).
  rewrite (bind_ok _ _ _ _ _ (getitem_ok _ _ _ _ _ _ Hd2 Hname)).
  rewrite (bind_ok _ _ _ _ _ (dict_get_ok _ _ _ _ Hd2)), Hpt.
  destruct (create_pipeline_succeeds name pt text content s2 Hrem Hfile Hc)
    as [s3 H3].
  destruct (clean_elim _ _ _ _ (clean_create_pipeline _ _) H3)
    as (l3 & Hf3 & _).
  assert (Hd3 : repos_data s3 !! i = Some d)
    by (by rewrite (frame_lookup _ _ _ _ Hf3)).
  rewrite (bind_ok _ _ _ _ _ H3).
  rewrite (bind_ok _ _ _ _ _ (getitem_ok _ _ _ _ _ _ Hd3 Hname)).
  by eapply set_repo_secrets_succeeds.
Qed.

End Functions.

End ScriptFacts.
(* ===================================================================== *)
(** * The properties of the run *)
(* ===================================================================== *)

Module Properties.
Import Text Py Script TextFacts ScriptFacts.

Section Run.
Context `{E : Env}.

(** C7.  An entry whose status is "created" is skipped: a run issues no
    request at all for it (no create, collaborator, pipeline or secret
    call). *)
Theorem created_entry_is_skipped (w : World) (repos : list repo)
    (i : nat) (d : repo) :
  repos !! i = Some d →
  status d = Some (lit "created") →
  calls_for i (log (run w repos).2) = [].
Proof.
  intros Hi Hs. destruct (run w repos) as [r st'] eqn:Hrun.
  destruct (run_spec _ _ _ _ Hrun) as (_ & Hent & _).
  destruct (Hent i d Hi) as (d' & _ & Hout).
  unfold outcome in Hout. rewrite Hs in Hout.
  rewrite decide_False in Hout by (by intros [=]).
  by destruct Hout.
Qed.

(** C6.  When the create call of a "need-to-create" entry fails (no
    response, or a client or server error status such as 422), it is the
    only call made for that entry: no collaborator, pipeline or secret call
    follows; the entry is unchanged in memory and in the file. *)
Theorem failed_create_stops_entry (w : World) (repos : list repo)
    (i : nat) (d : repo) (rq : request) (rs : response) (rest : list call) :
  repos !! i = Some d →
  status d = Some (lit "need-to-create") →
  calls_for i (log (run w repos).2) = (rq, rs) :: rest →
  failed rs = true →
  (∃ name, repo_name d = Some name ∧ rq = create_repo_request name)
  ∧ rest = []
  ∧ repos_data (run w repos).2 !! i = Some d
  ∧ repos_json (run w repos).2 !! i = Some d.
Proof.
  intros Hi Hs. destruct (run w repos) as [r st'] eqn:Hrun. simpl.
  intros Hcalls Hfail.
  destruct (run_spec _ _ _ _ Hrun) as (_ & Hent & Hfile).
  destruct (Hent i d Hi) as (d' & Hd' & Hout).
  unfold outcome in Hout. rewrite decide_True, Hcalls in Hout by done.
  destruct Hout as [[_ Hc]|[-> (Hlast & Hhead & _)]].
  - destruct Hc as (? & ? & ? & ? & ? & ? & ? & _ & _ & _ & _ & _ & Hok).
    apply Forall_cons in Hok as [Hok _]. unfold succeeded in Hok.
    simpl in Hok. congruence.
  - destruct (Hhead _ _ eq_refl) as (name & Hn & Hrq).
    split_and!; [by exists name| |done|].
    + by eapply (fail_last_failed _ [] (rq, rs) rest).
    + destruct r; [by rewrite Hfile|]. destruct Hfile as [-> _]. done.
Qed.

(** C2.  The status of an entry only ever moves from "need-to-create" to
    "created", and only when every provisioning call of the entry (create,
    each collaborator, the pipeline upload, each secret) was made and
    succeeded; when any call of the entry failed, the entry is unchanged at
    the end of the run, in memory and in the file. *)
Theorem status_moves_forward_on_success (w : World) (repos : list repo)
    (i : nat) (d : repo) :
  repos !! i = Some d →
  ∃ d',
    repos_data (run w repos).2 !! i = Some d'
    ∧ (d' = d
       ∨ (status d = Some (lit "need-to-create")
          ∧ d' = set_status (lit "created") d
          ∧ complete d (calls_for i (log (run w repos).2))))
    ∧ (Exists (λ c : call, failed c.2 = true)
         (calls_for i (log (run w repos).2)) → d' = d)
    ∧ (repos_json (run w repos).2 !! i = Some d
       ∨ repos_json (run w repos).2 !! i = Some d').
Proof.
  intros Hi. destruct (run w repos) as [r st'] eqn:Hrun. simpl.
  destruct (run_spec _ _ _ _ Hrun) as (_ & Hent & Hfile).
  destruct (Hent i d Hi) as (d' & Hd' & Hout).
  exists d'. split; [done|].
  assert (Hjson : repos_json st' !! i = Some d ∨ repos_json st' !! i = Some d').
  { destruct r; [right; by rewrite Hfile|left].
    destruct Hfile as [-> _]. done. }
  unfold outcome in Hout.
  destruct (decide (status d = Some (lit "need-to-create"))) as [Hs|Hs].
  - destruct Hout as [[-> Hc]|[-> _]]; [|by auto].
    split_and!; [by auto| |done].
    intros Hex. exfalso.
    destruct Hc as (? & ? & ? & ? & ? & ? & ? & _ & _ & _ & _ & _ & Hok).
    apply Exists_exists in Hex as (c & Hin & Hc).
    rewrite Forall_forall in Hok. specialize (Hok c Hin).
    unfold succeeded in Hok. congruence.
  - destruct Hout as [-> _]. by auto.
Qed.

(** C9.  When [main] returns, the whole list in memory, with the entries
    it did not touch, is what the file holds: it has as many entries as
    were read, each the entry read or that entry marked "created".  When no
    entry has the status "need-to-create" the file content is the content
    read; and when every entry has a status other than "need-to-create",
    the run returns, having issued no request. *)
Theorem store_is_rewritten_in_full (w : World) (repos : list repo) :
  (∀ st', run w repos = (Ok tt, st') →
     repos_json st' = repos_data st'
     ∧ length (repos_json st') = length repos
     ∧ ∀ i d, repos !! i = Some d →
         repos_json st' !! i = Some d
         ∨ repos_json st' !! i = Some (set_status (lit "created") d))
  ∧ ((∀ d, d ∈ repos → status d ≠ Some (lit "need-to-create")) →
     repos_json (run w repos).2 = repos)
  ∧ ((∀ d, d ∈ repos →
           ∃ s, status d = Some s ∧ s ≠ lit "need-to-create") →
     ∃ st', run w repos = (Ok tt, st')
            ∧ repos_json st' = repos ∧ log st' = []).
Proof.
  split_and!.
  - intros st' Hrun.
    destruct (run_spec _ _ _ _ Hrun) as (Hlen & Hent & Hfile).
    split_and!; [done|by rewrite Hfile|].
    intros i d Hi. destruct (Hent i d Hi) as (d' & Hd' & Hout).
    rewrite Hfile, Hd'. unfold outcome in Hout.
    destruct (decide _); [|left; by destruct Hout as [-> _]].
    destruct Hout as [[-> _]|[-> _]]; auto.
  - intros Hall. destruct (run w repos) as [r st'] eqn:Hrun. simpl.
    destruct (run_spec _ _ _ _ Hrun) as (Hlen & Hent & Hfile).
    destruct r as [[]|e]; [|by destruct Hfile]. rewrite Hfile.
    apply list_eq_same_length with (length repos); [done..|].
    intros i d' d _ Hd' Hi. destruct (Hent i d Hi) as (d'' & Hd'' & Hout).
    unfold outcome in Hout. rewrite decide_False in Hout.
    + destruct Hout as [-> _]. congruence.
    + apply Hall. by eapply list_elem_of_lookup_2.
  - intros Hall. unfold run, main, initial, json_load.
    unfold bind at 1. simpl. unfold bind.
    destruct (loop_skip (length repos) 0 (State w repos repos [] 0))
      as [c ->]; [simpl; lia|done|].
    eexists. split; [done|]. done.
Qed.

(** C10.  When the loop has reached an entry and processing it raises,
    the exception is not a [RequestException], [main] raises it there and
    then, and the file is not rewritten: it still holds what was read,
    whatever the entries before had become in memory. *)
Theorem uncaught_exception_skips_rewrite (w : World) (repos : list repo)
    (i : nat) (st st1 : state) (e : exn) :
  i < length repos →
  for_each (seq 0 i) for_body (State w repos repos [] 0) = (Ok tt, st) →
  for_body i st = (Raise e, st1) →
  is_request_exception e = false
  ∧ run w repos = (Raise e, st1)
  ∧ repos_json st1 = repos
  ∧ ∀ j, j ≠ i → repos_data st1 !! j = repos_data st !! j.
Proof.
  intros Hi Hpre Hbody.
  assert (Hrun : run w repos = (Raise e, st1)).
  { unfold run, main, initial, json_load. unfold bind at 1. simpl.
    replace (length repos) with (i + S (length repos - S i)) by lia.
    rewrite seq_app. unfold bind at 1. rewrite for_each_app.
    unfold bind at 1. rewrite Hpre. simpl. unfold bind. by rewrite Hbody. }
  destruct (run_spec _ _ _ _ Hrun) as (_ & _ & Hjson & He).
  split_and!; [done..|].
  destruct (loop_spec _ _ _ _ _ Hpre) as (_ & Hlen & _); [simpl; lia|].
  destruct (lookup_lt_is_Some_2 (repos_data st) i) as [d Hd];
    [simpl in Hlen; lia|].
  destruct (for_body_spec _ _ _ _ _ Hd Hbody) as (? & ? & _ & _ & _ & H & _).
  exact H.
Qed.

(** C8.  The pipeline step raises at once when the entry has no pipeline
    type, and the template loader raises [FileNotFoundError] when the file
    [<type>.yml] does not exist, and so does the pipeline step; in both
    cases the state is as before: no request went out.  In a run, no
    request issued for such an entry uploads a file. *)
Theorem pipeline_step_fails_without_template (name : str) (st : state)
    (w : World) (repos : list repo) (i : nat) (d : repo) :
  create_pipeline name None st = (Raise ValueError, st)
  ∧ (∀ pipeline_type,
       files (pipeline_type ++ lit ".yml") = None →
       read_pipeline_file pipeline_type st = (Raise FileNotFoundError, st)
       ∧ create_pipeline name (Some pipeline_type) st
         = (Raise FileNotFoundError, st))
  ∧ (repos !! i = Some d → no_template d →
     Forall (λ c : call, ¬ uploads_file c.1)
       (calls_for i (log (run w repos).2))).
Proof.
  split_and!; [done| |].
  - intros pt Hfile.
    unfold create_pipeline, bind, read_pipeline_file. by rewrite Hfile.
  - intros Hi Hno. destruct (run w repos) as [r st'] eqn:Hrun. simpl.
    destruct (run_spec _ _ _ _ Hrun) as (_ & Hent & _).
    destruct (Hent i d Hi) as (d' & _ & Hout). unfold outcome in Hout.
    destruct (decide _); [|by destruct Hout as [_ ->]].
    destruct Hout as [[_ Hc]|[_ (_ & _ & Hup)]]; [|by apply Hup].
    destruct Hc as (? & ? & pt & ? & ? & ? & ? & _ & _ & Hpt & Henc & _).
    destruct Henc as (? & ? & Hfile & _).
    unfold no_template in Hno. rewrite Hpt in Hno. congruence.
Qed.

(** C1, as the code has it.  The handler of the entry catches the
    exceptions of the HTTP library: when provisioning raises one, the entry
    is unchanged and the loop goes on with the next entry.  Any other
    exception is not caught: the loop, and with it the run, ends there. *)
Theorem request_exception_is_caught (i : nat) (rest : list nat)
    (d : repo) (st st1 : state) (e : exn) :
  repos_data st !! i = Some d →
  status d = Some (lit "need-to-create") →
  try_body i (enter i st).2 = (Raise e, st1) →
  if is_request_exception e
  then for_each (i :: rest) for_body st = for_each rest for_body st1
       ∧ repos_data st1 = repos_data st
  else for_each (i :: rest) for_body st = (Raise e, st1).
Proof.
  intros Hd Hs Htry.
  assert (Hbody : for_body i st
                  = if is_request_exception e then (Ok tt, st1)
                    else (Raise e, st1)).
  { unfold for_body. unfold bind at 1. simpl in *. unfold bind at 1.
    erewrite getitem_eq by exact Hd. rewrite Hs. simpl.
    rewrite decide_True by done.
    unfold try_except_RequestException. by rewrite Htry. }
  simpl. unfold bind. rewrite Hbody.
  destruct (is_request_exception e); [|done]. split; [done|].
  apply try_body_raise in Htry.
  destruct (clean_elim _ _ _ _ (clean_provision i) Htry) as (? & Hf & _).
  by destruct Hf as (-> & _).
Qed.

(** C4.  [encrypt] appends '=' to the public key until its length is a
    multiple of 4: as few as that takes, none when the length already is one;
    the key object is built from the padded string, by decoding it from
    base64 and checking its size. *)
Theorem encrypt_pads_public_key (public_key : str) :
  let n := (4 - length public_key mod 4) mod 4 in
  encrypt_pad public_key = public_key ++ replicate n 61%N
  ∧ length (encrypt_pad public_key) mod 4 = 0
  ∧ (length public_key mod 4 ≠ 0 → 0 < n < 4)
  ∧ (length public_key mod 4 = 0 → encrypt_pad public_key = public_key)
  ∧ (∀ secret_value,
       encrypt public_key secret_value
       = (key_bytes <- or_raise UnicodeEncodeError
                         (utf8_encode (public_key ++ replicate n 61%N)) ;;
          key <- PublicKey key_bytes ;;
          encrypt_for key secret_value))
  ∧ (∀ data st,
       PublicKey data st
       = match b64decode data with
         | Some raw => if decide (length raw = 32) then (Ok raw, st)
                       else (Raise NaclValueError, st)
         | None => (Raise BinasciiError, st)
         end).
Proof.
  intros n. split_and!.
  - apply encrypt_pad_eq.
  - apply encrypt_pad_length.
  - subst n. lia.
  - intros H. rewrite encrypt_pad_eq.
    replace ((4 - length public_key mod 4) mod 4) with 0 by lia.
    apply app_nil_r.
  - intros sv. unfold encrypt. by rewrite encrypt_pad_eq.
  - intros data st. unfold PublicKey, bind.
    destruct (b64decode data) as [raw|]; simpl; [|done].
    by destruct (decide _).
Qed.

(** C5.  Round trip of the sealed box: for a public key that decodes to
    [raw] and a secret that encodes, [encrypt] returns, and base64-decoding
    its result and opening it with the secret key that matches [raw] gives
    back the secret.  The sealed box itself belongs to the cryptographic
    library: [crypto_box_seal_open] is its opening function and the first
    hypothesis is its contract. *)
Theorem encrypt_round_trip
    (crypto_box_seal_open : bytes → bytes → bytes → option bytes)
    (keypair : bytes → bytes → Prop)
    (public_key : str) (raw secret_key : bytes)
    (secret_value : str) (message : bytes) (st : state) :
  (∀ m pk sk w, keypair sk pk →
     crypto_box_seal_open (crypto_box_seal m pk w).1 pk sk = Some m) →
  decodes_to public_key raw →
  keypair secret_key raw →
  utf8_encode secret_value = Some message →
  ∃ encrypted_value st',
    encrypt public_key (Some secret_value) st = (Ok encrypted_value, st')
    ∧ (ciphertext ← utf8_encode encrypted_value ≫= b64decode;
       opened ← crypto_box_seal_open ciphertext raw secret_key;
       utf8_decode opened) = Some secret_value.
Proof.
  intros Hbox Hkey Hpair Hm. eexists _, _. split.
  - by apply encrypt_ok.
  - rewrite (utf8_encode_ascii _ (b64encode_ascii _)). simpl.
    rewrite b64decode_b64encode. simpl.
    rewrite (Hbox _ _ _ _ Hpair). simpl.
    by apply utf8_decode_encode.
Qed.

(** C3.  One entry "svc-a" with the user "alice" and the pipeline type
    "deploy", the file [deploy.yml] holding "name: CI", in the environment
    a token that can go into a header, and a remote that answers every call
    with success: the run returns and its log is exactly one create call
    for "svc-a", one collaborator call for "alice", one upload of the
    base64 of "name: CI" to [.github/workflows/deploy.yml] on the branch
    "main", the public-key request and the two secret calls, which carry
    the example secret and the token, each sealed for the key the remote
    sent; the file then holds the entry with the status "created". *)
Theorem single_entry_scenario (w : World) (token : str)
    (token_bytes : bytes) :
  remote_succeeds →
  GITHUB_TOKEN = Some token → header_safe token = true →
  utf8_encode token = Some token_bytes →
  files (lit "deploy.yml") = Some (lit "name: CI") →
  ∃ st' rs1 rs2 rs3 rs4 rs5 rs6 ev1 ev2 kid,
    run w [Demo.svc_a] = (Ok tt, st')
    ∧ log st' =
        [ (0, create_repo_request (lit "svc-a"), rs1);
          (0, add_collaborator_request (lit "svc-a") (lit "alice"), rs2);
          (0, Request PUT
                (GITHUB_API_URL ++ lit "/repos/" ++ fmt ORG_NAME
                 ++ lit "/svc-a/contents/.github/workflows/deploy.yml")
                HEADERS
                (Some [ (lit "message", JStr (lit "Add deploy pipeline"));
                        (lit "content", JStr (lit "bmFtZTogQ0k="));
                        (lit "branch", JStr (lit "main")) ]), rs3);
          (0, get_public_key_request (lit "svc-a"), rs4);
          (0, set_secret_request (lit "svc-a") (lit "SECRET_KEY") ev1 kid,
              rs5);
          (0, set_secret_request (lit "svc-a") (lit "GH_TOKEN") ev2 kid,
              rs6) ]
    ∧ Forall (λ ev : event, failed ev.2 = false) (log st')
    ∧ repos_json st' = [set_status (lit "created") Demo.svc_a]
    ∧ (utf8_encode (lit "name: CI") ≫= λ content,
         utf8_decode (b64encode content)) = Some (lit "bmFtZTogQ0k=")
    ∧ (∃ code k raw,
         rs4 = Response code (Ok (PublicKeyInfo (Some k) (Some kid)))
         ∧ decodes_to k raw
         ∧ seals raw (lit "example_secret_value") ev1
         ∧ seals raw token ev2).
Proof.
  intros Hrem Htok Hsafe Htb Hfile.
  assert (Hcalls : calls_succeed).
  { apply calls_succeed_intro; [done|by eapply headers_pass_token]. }
  set (s0 := State w [Demo.svc_a] [Demo.svc_a] [] 0).
  assert (Hd : repos_data s0 !! 0 = Some Demo.svc_a) by done.
  assert (Hyml : lit "deploy" ++ lit ".yml" = lit "deploy.yml")
    by (by rewrite <- lit_app).
  assert (Hci : utf8_encode (lit "name: CI")
                = Some (list_byte_of_string "name: CI"))
    by (by vm_compute).
  assert (Hb64 : utf8_decode (b64encode (list_byte_of_string "name: CI"))
                 = Some (lit "bmFtZTogQ0k=")) by (by vm_compute).
  destruct (provision_succeeds 0 Demo.svc_a (lit "svc-a") [lit "alice"]
              (lit "deploy") (lit "name: CI")
              (list_byte_of_string "name: CI") token token_bytes s0
              Hcalls Htok Htb Hd eq_refl eq_refl eq_refl)
    as [s1 Hp]; [by rewrite Hyml|done|].
  destruct (clean_elim _ _ _ _ (clean_provision 0) Hp) as (calls & Hf & _ & Hok).
  destruct (provision_inv_ok _ _ _ _ Hd Hp)
    as (calls' & name & users & pt & enc & kid & ev1 & ev2 & Hf'
        & [= <-] & [= <-] & [= <-] & Henc & Hshape & Hsealed).
  pose proof (frame_unique _ _ _ _ Hf' Hf) as ->. clear Hf'.
  destruct Henc as (text & content & Ht & Hc & He).
  rewrite Hyml, Hfile in Ht. injection Ht as <-.
  rewrite Hci in Hc. injection Hc as <-.
  rewrite Hb64 in He. injection He as <-.
  specialize (Hok I).
  destruct calls as [|[q1 rs1] [|[q2 rs2] [|[q3 rs3] [|[q4 rs4]
    [|[q5 rs5] [|[q6 rs6] [|]]]]]]]; try done.
  injection Hshape as -> -> -> -> -> ->.
  destruct Hf as (Hdata & Hjson & Hcur & Hlog). simpl in Hdata, Hjson, Hlog.
  exists (State (world s1) [set_status (lit "created") Demo.svc_a]
                [set_status (lit "created") Demo.svc_a] (log s1) (current s1)).
  exists rs1, rs2, rs3, rs4, rs5, rs6, ev1, ev2, kid.
  split_and!.
  - unfold run, main, initial, json_load. unfold bind at 1. simpl.
    fold s0. unfold for_body, enter. unfold bind at 1. unfold bind at 1.
    unfold bind at 1.
    change (State (world s0) (repos_data s0) (repos_json s0) (log s0) 0)
      with s0.
    rewrite (bind_ok _ _ _ _ _
               (getitem_ok 0 (lit "status") status s0 _ _ Hd eq_refl)).
    rewrite decide_True by done.
    unfold try_except_RequestException, try_body. unfold bind at 1.
    rewrite Hp. unfold setitem_status, json_dump, ret. simpl.
    by rewrite Hdata.
  - simpl. rewrite Hlog. unfold create_pipeline_request.
    rewrite <- !lit_app. done.
  - simpl. rewrite Hlog.
    repeat (apply Forall_cons in Hok as [? Hok]).
    repeat (apply Forall_cons_2; [done|]). done.
  - done.
  - rewrite Hci. simpl. done.
  - destruct Hsealed as (pre & r4 & c5 & c6 & Hpre & Hs4).
    assert (r4 = rs4) as ->.
    { assert (Hlen : length pre = 3).
      { apply (f_equal length) in Hpre. rewrite length_app in Hpre.
        simpl in Hpre. lia. }
      destruct pre as [|? [|? [|? [|? pre]]]]; try done.
      by simplify_eq/=. }
    destruct Hs4 as (code & k & raw & token' & -> & Hk & H1 & Htok' & H2).
    exists code, k, raw. rewrite Htok in Htok'. injection Htok' as <-.
    done.
Qed.

End Run.

End Properties.

(* ===================================================================== *)
(** * The properties on concrete runs *)
(* ===================================================================== *)

Module Runs.
Import Text Py Script TextFacts ScriptFacts Properties Demo.

(** The remote of [ok_server] answers every call with success. *)
Lemma ok_server_succeeds : @remote_succeeds (env ok_server).
Proof.
  intros rq w. exists 201%N, (Ok key_doc). split_and!; [done..|].
  intros _. exists key43, (lit "568250167242549743"), (replicate 32 x00).
  split; [done|]. eexists. split_and!; by vm_compute.
Qed.

Lemma toy_box_contract (m pk sk : bytes) (w : nat) :
  toy_keypair sk pk → toy_seal_open (toy_seal m pk w).1 pk sk = Some m.
Proof.
  intros _. unfold toy_seal_open, toy_seal. simpl.
  by rewrite drop_app_length.
Qed.

(** C1 as stated fails.  The first entry names a pipeline type without a
    template file: provisioning it raises [FileNotFoundError], which the
    handler does not catch; [main] raises it, the file is not rewritten, and
    the second entry, which needs creating, is never processed (alone, it is
    provisioned). *)
Lemma missing_template_aborts_run :
  (@try_body (env ok_server) 0
     (State (0 : @World (env ok_server)) [svc_b; svc_a] [svc_b; svc_a] [] 0)).1
    = Raise FileNotFoundError
  ∧ (@run (env ok_server) 0 [svc_b; svc_a]).1 = Raise FileNotFoundError
  ∧ status svc_a = Some (lit "need-to-create")
  ∧ calls_for 1 (log (@run (env ok_server) 0 [svc_b; svc_a]).2) = []
  ∧ length (calls_for 0 (log (@run (env ok_server) 0 [svc_a]).2)) = 6.
Proof. split_and!; by vm_compute. Qed.

(** C6 as stated fails.  The create call of the entry is answered 304, a
    status that is not a success; [raise_for_status] raises only for the
    client and server errors, so the entry is provisioned all the same:
    the five calls that follow are made and the entry is persisted as
    "created". *)
Lemma redirect_status_is_not_a_failure :
  status svc_a = Some (lit "need-to-create")
  ∧ ¬ (200 ≤ 304 < 300)%N
  ∧ is_error_status 304 = false
  ∧ head (calls_for 0 (log (@run (env not_modified_server) 0 [svc_a]).2))
    = Some (@create_repo_request (env not_modified_server) (lit "svc-a"),
            Response 304 (Ok key_doc))
  ∧ length (calls_for 0 (log (@run (env not_modified_server) 0 [svc_a]).2))
    = 6
  ∧ (@run (env not_modified_server) 0 [svc_a]).1 = Ok tt
  ∧ repos_json (@run (env not_modified_server) 0 [svc_a]).2
    = [set_status (lit "created") svc_a].
Proof. split_and!; try (by vm_compute). lia. Qed.

Lemma request_exception_is_caught_witness :
  let st := State (0 : @World (env name_taken_server))
                  [svc_a; svc_a] [svc_a; svc_a] [] 0 in
  let st1 := (@try_body (env name_taken_server) 0 st).2 in
  repos_data st !! 0 = Some svc_a
  ∧ status svc_a = Some (lit "need-to-create")
  ∧ @try_body (env name_taken_server) 0 (enter 0 st).2
    = (Raise (HTTPError 422), st1)
  ∧ for_each [0; 1] for_body st = for_each [1] for_body st1
  ∧ repos_data st1 = repos_data st.
Proof.
  intros st st1.
  assert (H1 : repos_data st !! 0 = Some svc_a) by reflexivity.
  assert (H2 : status svc_a = Some (lit "need-to-create")) by reflexivity.
  assert (H3 : @try_body (env name_taken_server) 0 (enter 0 st).2
               = (Raise (HTTPError 422), st1)) by (vm_compute; reflexivity).
  split; [exact H1|]. split; [exact H2|]. split; [exact H3|].
  exact (@request_exception_is_caught (env name_taken_server)
           0 [1] svc_a st st1 (HTTPError 422) H1 H2 H3).
Defined.

Lemma status_moves_forward_on_success_witness :
  [svc_a] !! 0 = Some svc_a
  ∧ ∃ d',
      repos_data (@run (env ok_server) 0 [svc_a]).2 !! 0 = Some d'
      ∧ (d' = svc_a
         ∨ (status svc_a = Some (lit "need-to-create")
            ∧ d' = set_status (lit "created") svc_a
            ∧ @complete (env ok_server) svc_a
                (calls_for 0 (log (@run (env ok_server) 0 [svc_a]).2))))
      ∧ (Exists (λ c : call, failed c.2 = true)
           (calls_for 0 (log (@run (env ok_server) 0 [svc_a]).2))
         → d' = svc_a)
      ∧ (repos_json (@run (env ok_server) 0 [svc_a]).2 !! 0 = Some svc_a
         ∨ repos_json (@run (env ok_server) 0 [svc_a]).2 !! 0 = Some d').
Proof.
  split; [reflexivity|].
  apply (@status_moves_forward_on_success (env ok_server) 0 [svc_a] 0 svc_a).
  reflexivity.
Defined.

Lemma single_entry_scenario_witness :
  @remote_succeeds (env ok_server)
  ∧ @GITHUB_TOKEN (env ok_server) = Some (lit "t0ken")
  ∧ header_safe (lit "t0ken") = true
  ∧ utf8_encode (lit "t0ken") = Some (list_byte_of_string "t0ken")
  ∧ @files (env ok_server) (lit "deploy.yml") = Some (lit "name: CI")
  ∧ ∃ st', @run (env ok_server) 0 [svc_a] = (Ok tt, st')
           ∧ length (log st') = 6
           ∧ repos_json st' = [set_status (lit "created") svc_a].
Proof.
  assert (H2 : header_safe (lit "t0ken") = true) by (vm_compute; reflexivity).
  assert (H3 : utf8_encode (lit "t0ken") = Some (list_byte_of_string "t0ken"))
    by (vm_compute; reflexivity).
  assert (H4 : @files (env ok_server) (lit "deploy.yml")
               = Some (lit "name: CI")) by (vm_compute; reflexivity).
  split; [exact ok_server_succeeds|]. split; [reflexivity|].
  split; [exact H2|]. split; [exact H3|]. split; [exact H4|].
  destruct (@single_entry_scenario (env ok_server) 0 (lit "t0ken")
              (list_byte_of_string "t0ken") ok_server_succeeds eq_refl H2 H3
              H4)
    as (st' & ? & ? & ? & ? & ? & ? & ? & ? & ? & Hrun & Hlog & _ & Hjson & _).
  exists st'. split; [exact Hrun|]. split; [|exact Hjson].
  rewrite Hlog. reflexivity.
Defined.

Lemma encrypt_pads_public_key_witness :
  length (key43 ++ [61%N]) mod 4 = 0
  ∧ encrypt_pad (key43 ++ [61%N]) = key43 ++ [61%N].
Proof.
  split; [reflexivity|].
  apply (@encrypt_pads_public_key (env ok_server) (key43 ++ [61%N])).
  reflexivity.
Defined.

Lemma encrypt_round_trip_witness :
  let st := State (0 : @World (env ok_server)) [] [] [] 0 in
  let zeros := replicate 32 x00 in
  @decodes_to key43 zeros
  ∧ toy_keypair zeros zeros
  ∧ utf8_encode (lit "s3cret") = Some (list_byte_of_string "s3cret")
  ∧ ∃ encrypted_value st',
      @encrypt (env ok_server) key43 (Some (lit "s3cret")) st
      = (Ok encrypted_value, st')
      ∧ (ciphertext ← utf8_encode encrypted_value ≫= b64decode;
         opened ← toy_seal_open ciphertext zeros zeros;
         utf8_decode opened) = Some (lit "s3cret").
Proof.
  intros st zeros.
  assert (H1 : decodes_to key43 zeros).
  { eexists. split; [vm_compute; reflexivity|].
    split; vm_compute; reflexivity. }
  assert (H2 : toy_keypair zeros zeros) by reflexivity.
  assert (H3 : utf8_encode (lit "s3cret")
               = Some (list_byte_of_string "s3cret"))
    by (vm_compute; reflexivity).
  split; [exact H1|]. split; [exact H2|]. split; [exact H3|].
  exact (@encrypt_round_trip (env ok_server) toy_seal_open toy_keypair
           key43 zeros zeros (lit "s3cret") (list_byte_of_string "s3cret")
           st toy_box_contract H1 H2 H3).
Defined.

Lemma failed_create_stops_entry_witness :
  let rq := @create_repo_request (env name_taken_server) (lit "svc-a") in
  let rs := Response 422 (Ok key_doc) in
  [svc_a; svc_done] !! 0 = Some svc_a
  ∧ status svc_a = Some (lit "need-to-create")
  ∧ calls_for 0 (log (@run (env name_taken_server) 0 [svc_a; svc_done]).2)
    = [(rq, rs)]
  ∧ failed rs = true
  ∧ (∃ name, repo_name svc_a = Some name
             ∧ rq = @create_repo_request (env name_taken_server) name)
  ∧ @nil call = []
  ∧ repos_data (@run (env name_taken_server) 0 [svc_a; svc_done]).2 !! 0
    = Some svc_a
  ∧ repos_json (@run (env name_taken_server) 0 [svc_a; svc_done]).2 !! 0
    = Some svc_a.
Proof.
  intros rq rs.
  assert (H3 : calls_for 0
                 (log (@run (env name_taken_server) 0 [svc_a; svc_done]).2)
               = [(rq, rs)]) by (vm_compute; reflexivity).
  split; [reflexivity|]. split; [reflexivity|]. split; [exact H3|].
  split; [reflexivity|].
  exact (@failed_create_stops_entry (env name_taken_server) 0
           [svc_a; svc_done] 0 svc_a rq rs [] eq_refl eq_refl H3 eq_refl).
Defined.

Lemma created_entry_is_skipped_witness :
  [svc_a; svc_done] !! 1 = Some svc_done
  ∧ status svc_done = Some (lit "created")
  ∧ calls_for 1 (log (@run (env ok_server) 0 [svc_a; svc_done]).2) = [].
Proof.
  split; [reflexivity|]. split; [reflexivity|].
  apply (@created_entry_is_skipped (env ok_server) 0 [svc_a; svc_done] 1
           svc_done); reflexivity.
Defined.

Lemma pipeline_step_fails_without_template_witness :
  let st := State (0 : @World (env ok_server)) [] [] [] 0 in
  @files (env ok_server) (lit "build" ++ lit ".yml") = None
  ∧ [svc_b] !! 0 = Some svc_b
  ∧ @no_template (env ok_server) svc_b
  ∧ @create_pipeline (env ok_server) (lit "svc-b") None st
    = (Raise ValueError, st)
  ∧ @read_pipeline_file (env ok_server) (lit "build") st
    = (Raise FileNotFoundError, st)
  ∧ @create_pipeline (env ok_server) (lit "svc-b") (Some (lit "build")) st
    = (Raise FileNotFoundError, st)
  ∧ Forall (λ c : call, ¬ @uploads_file (env ok_server) c.1)
      (calls_for 0 (log (@run (env ok_server) 0 [svc_b]).2)).
Proof.
  intros st.
  assert (H : @files (env ok_server) (lit "build" ++ lit ".yml") = None)
    by (vm_compute; reflexivity).
  assert (Hno : @no_template (env ok_server) svc_b)
    by (vm_compute; reflexivity).
  split; [exact H|]. split; [reflexivity|]. split; [exact Hno|].
  destruct (@pipeline_step_fails_without_template (env ok_server)
              (lit "svc-b") st 0 [svc_b] 0 svc_b) as (H1 & H2 & H3).
  split; [exact H1|]. destruct (H2 (lit "build") H) as [H4 H5].
  split; [exact H4|]. split; [exact H5|]. exact (H3 eq_refl Hno).
Defined.

Lemma store_is_rewritten_in_full_witness :
  (∀ d, d ∈ [svc_done; svc_done] →
        ∃ s, status d = Some s ∧ s ≠ lit "need-to-create")
  ∧ ∃ st', @run (env ok_server) 0 [svc_done; svc_done] = (Ok tt, st')
           ∧ repos_json st' = [svc_done; svc_done] ∧ log st' = [].
Proof.
  assert (H : ∀ d, d ∈ [svc_done; svc_done] →
                   ∃ s, status d = Some s ∧ s ≠ lit "need-to-create").
  { intros d Hd. exists (lit "created").
    split; [|vm_compute; discriminate].
    apply elem_of_cons in Hd as [->|Hd]; [reflexivity|].
    apply elem_of_cons in Hd as [->|Hd]; [reflexivity|].
    by apply elem_of_nil in Hd. }
  split; [exact H|].
  exact (proj2 (proj2 (@store_is_rewritten_in_full (env ok_server) 0
                         [svc_done; svc_done])) H).
Defined.

(** The second entry raises after the first was completed: in memory the
    first entry is "created", in the file it still is "need-to-create". *)
Lemma uncaught_exception_skips_rewrite_witness :
  let repos := [svc_a; svc_b] in
  let st0 := State (0 : @World (env ok_server)) repos repos [] 0 in
  let st := (for_each (seq 0 1) for_body st0).2 in
  let st1 := (for_body 1 st).2 in
  1 < length repos
  ∧ for_each (seq 0 1) for_body st0 = (Ok tt, st)
  ∧ for_body 1 st = (Raise FileNotFoundError, st1)
  ∧ (is_request_exception FileNotFoundError = false
     ∧ @run (env ok_server) 0 repos = (Raise FileNotFoundError, st1)
     ∧ repos_json st1 = repos
     ∧ ∀ j, j ≠ 1 → repos_data st1 !! j = repos_data st !! j)
  ∧ repos_data st1 !! 0 = Some (set_status (lit "created") svc_a)
  ∧ repos_json st1 !! 0 = Some svc_a.
Proof.
  intros repos st0 st st1.
  assert (H1 : 1 < length repos) by (simpl; lia).
  assert (H2 : for_each (seq 0 1) for_body st0 = (Ok tt, st))
    by (vm_compute; reflexivity).
  assert (H3 : for_body 1 st = (Raise FileNotFoundError, st1))
    by (vm_compute; reflexivity).
  split; [exact H1|]. split; [exact H2|]. split; [exact H3|].
  split; [|split; vm_compute; reflexivity].
  exact (@uncaught_exception_skips_rewrite (env ok_server) 0 repos 1 st st1
           FileNotFoundError H1 H2 H3).
Defined.

(** A key of 43 characters does not decode as it is; padded it does. *)
Example key43_needs_padding :
  (utf8_encode key43 ≫= b64decode) = None
  ∧ (utf8_encode (encrypt_pad key43) ≫= b64decode)
    = Some (replicate 32 x00).
Proof. split; by vm_compute. Qed.

(** An entry without a name: [repo["repo-name"]] raises [KeyError], which
    ends the run; without a status the lookup in the loop condition does. *)
Example missing_field_aborts_run :
  (@run (env ok_server) 0
     [Repo None (Some []) None (Some (lit "need-to-create")); svc_a]).1
    = Raise (KeyError (lit "repo-name"))
  ∧ (@run (env ok_server) 0 [Repo (Some (lit "x")) (Some []) None None]).1
    = Raise (KeyError (lit "status")).
Proof. split; by vm_compute. Qed.

End Runs.

(* ===================================================================== *)
(** * More of the script: single functions, then the run *)
(* ===================================================================== *)

Module Coverage.
Import Text Py Script TextFacts ScriptFacts.

#[local] Hint Resolve clean_ret clean_raise clean_or_raise clean_getitem
  clean_dict_get clean_sealed_box_encrypt : clean.

Section Calls.
Context `{E : Env}.

(** A call followed by [raise_for_status]: one call, and the result that
    what it came to decides. *)
Lemma http_checked_spec m url payload st :
  ∃ rs,
    frame st (bind (http m url payload) raise_for_status st).2
      [(Request m url HEADERS payload, rs)]
    ∧ (bind (http m url payload) raise_for_status st).1 = checked rs.
Proof.
  unfold bind, http.
  destruct (requests_request _ (world st)) as [[e0|code body] w].
  - by exists (NoResponse e0).
  - exists (Response code body). unfold raise_for_status, checked. simpl.
    by destruct (is_error_status code).
Qed.

(** X1.  When the template file exists, [create_pipeline] makes exactly
    one call of the HTTP library, a request to the workflow path of the
    pipeline type whose content decodes (base64, then UTF-8) to the text of
    the file, unchanged; the result is the one that call decides. *)
Theorem upload_carries_the_template (repo_name pipeline_type text : str)
    (content : bytes) (st : state) :
  files (pipeline_type ++ lit ".yml") = Some text →
  utf8_encode text = Some content →
  ∃ encoded rs,
    frame st (create_pipeline repo_name (Some pipeline_type) st).2
      [(create_pipeline_request repo_name pipeline_type encoded, rs)]
    ∧ (create_pipeline repo_name (Some pipeline_type) st).1 = checked rs
    ∧ (octets ← utf8_encode encoded ≫= b64decode; utf8_decode octets)
      = Some text.
Proof.
  intros Hfile Hc. exists (Byte.to_N <$> b64encode content).
  assert (Heq : create_pipeline repo_name (Some pipeline_type) st
    = bind (http PUT
        (GITHUB_API_URL ++ lit "/repos/" ++ fmt ORG_NAME ++ lit "/"
         ++ repo_name ++ lit "/contents/.github/workflows/"
         ++ pipeline_type ++ lit ".yml")
        (Some [ (lit "message",
                  JStr (lit "Add " ++ pipeline_type ++ lit " pipeline"));
                (lit "content", JStr (Byte.to_N <$> b64encode content));
                (lit "branch", JStr (lit "main")) ]))
        raise_for_status st).
  { unfold create_pipeline, read_pipeline_file, requests_put, bind.
    rewrite Hfile. simpl. rewrite Hc. simpl.
    by rewrite (utf8_decode_ascii _ (b64encode_ascii content)). }
  rewrite Heq.
  match goal with |- context [bind (http PUT ?u ?p) _ st] =>
    destruct (http_checked_spec PUT u p st) as (rs & Hf & Hr) end.
  exists rs. split_and!; [exact Hf|exact Hr|].
  rewrite (utf8_encode_ascii _ (b64encode_ascii content)). simpl.
  rewrite b64decode_b64encode. simpl. by apply utf8_decode_encode.
Qed.

(** X11.  A public key that, padded, is not base64, makes [encrypt] raise
    the decoder's error; one that decodes to other than 32 octets makes it
    raise the key's size error.  Both come before the secret is looked at
    (so also for a secret that is [None]) and leave the state as it was: no
    call, no randomness drawn. *)
Theorem encrypt_rejects_malformed_key (public_key : str)
    (key_bytes : bytes) (secret_value : option str) (st : state) :
  utf8_encode (encrypt_pad public_key) = Some key_bytes →
  (b64decode key_bytes = None →
   encrypt public_key secret_value st = (Raise BinasciiError, st))
  ∧ (∀ raw, b64decode key_bytes = Some raw → length raw ≠ 32 →
     encrypt public_key secret_value st = (Raise NaclValueError, st)).
Proof.
  intros Hkb. unfold encrypt, PublicKey, bind. rewrite Hkb. simpl. split.
  - by intros ->.
  - intros raw -> Hlen. simpl. by rewrite decide_False.
Qed.

Lemma encrypt_none public_key raw st :
  decodes_to public_key raw →
  encrypt public_key None st = (Raise AttributeError, st).
Proof.
  intros (kb & Hkb & Hraw & Hlen).
  unfold encrypt, encrypt_for, PublicKey, bind.
  rewrite Hkb. simpl. rewrite Hraw. simpl. by rewrite decide_True.
Qed.

Lemma get_public_key_spec name st :
  ∃ rs,
    frame st (get_public_key name st).2 [(get_public_key_request name, rs)]
    ∧ (get_public_key name st).1
      = match rs with
        | NoResponse e => Raise e
        | Response code body =>
            if is_error_status code then Raise (HTTPError code) else body
        end.
Proof.
  unfold get_public_key, requests_get, bind, http.
  destruct (requests_request _ (world st)) as [[e0|code body] w].
  - by exists (NoResponse e0).
  - exists (Response code body). unfold raise_for_status.
    destruct (is_error_status code); [done|]. simpl.
    by destruct body.
Qed.

(** X12.  With no secrets to set, [set_repo_secrets] still asks for the
    public key, that one call and no other, and still needs the "key" of
    the answer (a [KeyError] otherwise); the "key_id" is never read. *)
Theorem set_repo_secrets_without_secrets (repo_name : str) (st : state) :
  ∃ rs,
    frame st (set_repo_secrets repo_name [] st).2
      [(get_public_key_request repo_name, rs)]
    ∧ (set_repo_secrets repo_name [] st).1
      = match rs with
        | NoResponse e => Raise e
        | Response code body =>
            if is_error_status code then Raise (HTTPError code)
            else match body with
                 | Raise e => Raise e
                 | Ok doc => match key doc with
                             | Some _ => Ok tt
                             | None => Raise (KeyError (lit "key"))
                             end
                 end
        end.
Proof.
  destruct (get_public_key_spec repo_name st) as (rs & Hf & Hr).
  exists rs. unfold set_repo_secrets.
  destruct (get_public_key repo_name st) as [[doc|e] s1] eqn:Hg;
    simpl in Hf, Hr.
  - rewrite (bind_ok _ _ _ _ _ Hg). unfold bind. simpl.
    destruct rs as [e0|code body]; [done|].
    destruct (is_error_status code); [done|]. subst body.
    by destruct (key doc).
  - rewrite (bind_raise _ _ _ _ _ Hg). simpl. split; [done|].
    destruct rs as [e0|code body]; [by injection Hr as ->|].
    destruct (is_error_status code); [by injection Hr as ->|].
    by rewrite <- Hr.
Qed.

(** X10.  Without [GH_TOKEN] in the environment, and with a remote that
    answers every call with success, [set_repo_secrets] fetches the key,
    uploads the first secret, and only then raises [AttributeError] on the
    token that is [None]: two calls were made, the one for the second
    secret never is. *)
Theorem unset_token_stops_after_first_secret (repo_name : str)
    (st : state) :
  remote_succeeds → GITHUB_TOKEN = None →
  ∃ calls kid ev1 st',
    set_repo_secrets repo_name secrets st = (Raise AttributeError, st')
    ∧ frame st st' calls
    ∧ calls.*1 = [ get_public_key_request repo_name;
                   set_secret_request repo_name (lit "SECRET_KEY") ev1 kid ].
Proof.
  intros Hremote Htok.
  assert (Hrem : calls_succeed).
  { apply calls_succeed_intro; [done|by apply headers_pass_without_token]. }
  destruct (get_public_key_succeeds repo_name st Hrem)
    as (k & kid & raw & s1 & Hkey & Hk).
  destruct (get_public_key_inv_ok _ _ _ _ Hkey) as (code0 & Hf0).
  set (rs0 := Response code0 _) in Hf0.
  assert (Hex : ∃ mb, utf8_encode (lit "example_secret_value") = Some mb)
    by (by eexists; vm_compute).
  destruct Hex as [mb Hmb].
  pose proof (encrypt_ok _ _ _ _ s1 Hk Hmb) as He1.
  pose proof (encrypt_frame k (Some (lit "example_secret_value")) s1) as Hq1.
  rewrite He1 in Hq1. simpl in Hq1.
  set (ev1 := Byte.to_N <$> b64encode (crypto_box_seal mb raw (world s1)).1)
    in *.
  set (sE := State _ _ _ _ _) in *.
  destruct (requests_put_succeeds
    (GITHUB_API_URL ++ lit "/repos/" ++ fmt ORG_NAME ++ lit "/"
     ++ repo_name ++ lit "/actions/secrets/" ++ lit "SECRET_KEY")
    [ (lit "encrypted_value", JStr ev1); (lit "key_id", JStr kid) ]
    sE Hrem) as [s2 H2].
  destruct (http_inv_ok _ _ _ _ _ H2) as (rs1 & Hf1).
  exists [(get_public_key_request repo_name, rs0);
          (set_secret_request repo_name (lit "SECRET_KEY") ev1 kid, rs1)],
         kid, ev1, s2.
  split_and!; [| |done].
  - unfold set_repo_secrets, secrets. rewrite Htok.
    rewrite (bind_ok _ _ _ _ _ Hkey). simpl.
    rewrite (bind_ok _ _ _ _ _ (eq_refl : ret k s1 = (Ok k, s1))).
    cbn [for_each].
    rewrite (bind_ok (bind (encrypt k _) _) _ s1 tt s2).
    + rewrite (bind_raise _ _ s2 AttributeError s2); [done|].
      by rewrite (bind_raise _ _ s2 AttributeError s2 (encrypt_none _ _ _ Hk)).
    + rewrite (bind_ok _ _ _ _ _ He1). simpl.
      rewrite (bind_ok _ _ _ _ _ (eq_refl : ret kid sE = (Ok kid, sE))).
      exact H2.
  - exact (frame_trans _ _ _ _ _ Hf0 (frame_trans _ _ _ _ _ Hq1 Hf1)).
Qed.


(** ** The calls of an entry follow its plan *)

Lemma add_collaborator_spec name user st :
  ∃ rs, frame st (add_collaborator name user st).2
          [(add_collaborator_request name user, rs)]
        ∧ (add_collaborator name user st).1 = checked rs.
Proof. apply http_checked_spec. Qed.

Lemma create_repo_spec name st :
  ∃ rs, frame st (create_repo name st).2 [(create_repo_request name, rs)]
        ∧ (create_repo name st).1 = checked rs.
Proof. apply http_checked_spec. Qed.

Lemma collaborators_prefix i d name users st :
  repos_data st !! i = Some d → repo_name d = Some name →
  ∃ calls,
    frame st (for_each users (λ user,
                name <- getitem i (lit "repo-name") repo_name ;;
                add_collaborator name user) st).2 calls
    ∧ calls.*1 `prefix_of` (add_collaborator_request name <$> users)
    ∧ (is_ok (for_each users (λ user,
                name <- getitem i (lit "repo-name") repo_name ;;
                add_collaborator name user) st).1 →
       calls.*1 = (add_collaborator_request name <$> users)).
Proof.
  intros Hd Hname. revert st Hd.
  induction users as [|user users IH]; intros st Hd.
  - exists []. split_and!; [apply frame_refl|done|done].
  - cbn [for_each].
    destruct (add_collaborator_spec name user st) as (rs & Hf & _).
    pose proof (bind_ok _ (λ name, add_collaborator name user) _ _ _
                  (getitem_ok i (lit "repo-name") repo_name st _ _ Hd Hname))
      as Hstep.
    destruct (add_collaborator name user st) as [[[]|e] s1] eqn:Ha;
      simpl in Hf.
    + rewrite (bind_ok _ _ _ _ _ Hstep).
      destruct (IH s1) as (l & Hfl & Hpre & Hall).
      { by rewrite (frame_lookup _ _ _ _ Hf). }
      exists ((add_collaborator_request name user, rs) :: l).
      split_and!.
      * exact (frame_trans _ _ _ _ _ Hf Hfl).
      * rewrite !fmap_cons. by apply prefix_cons.
      * intros Hok. rewrite !fmap_cons. f_equal. by apply Hall.
    + rewrite (bind_raise _ _ _ _ _ Hstep).
      exists [(add_collaborator_request name user, rs)].
      split_and!; [done| |intros []].
      rewrite !fmap_cons. apply prefix_cons, prefix_nil.
Qed.

Lemma create_pipeline_calls name pto st :
  ∃ calls,
    frame st (create_pipeline name pto st).2 calls
    ∧ ((calls = [] ∧ ¬ is_ok (create_pipeline name pto st).1)
       ∨ ∃ pt enc rs,
           pto = Some pt ∧ encoded_template pt enc
           ∧ calls = [(create_pipeline_request name pt enc, rs)]).
Proof.
  destruct pto as [pt|].
  2: { exists []. split; [apply frame_refl|]. left.
       split; [done|by intros []]. }
  destruct (files (pt ++ lit ".yml")) as [text|] eqn:Hfile.
  2: { exists []. unfold create_pipeline, read_pipeline_file, bind.
       rewrite Hfile. simpl. split; [apply frame_refl|]. left.
       split; [done|by intros []]. }
  destruct (utf8_encode text) as [content|] eqn:Hc.
  2: { exists []. unfold create_pipeline, read_pipeline_file, bind.
       rewrite Hfile. simpl. rewrite Hc. simpl.
       split; [apply frame_refl|]. left. split; [done|by intros []]. }
  assert (Heq : create_pipeline name (Some pt) st
    = bind (http PUT
        (GITHUB_API_URL ++ lit "/repos/" ++ fmt ORG_NAME ++ lit "/"
         ++ name ++ lit "/contents/.github/workflows/" ++ pt ++ lit ".yml")
        (Some [ (lit "message", JStr (lit "Add " ++ pt ++ lit " pipeline"));
                (lit "content", JStr (Byte.to_N <$> b64encode content));
                (lit "branch", JStr (lit "main")) ]))
        raise_for_status st).
  { unfold create_pipeline, read_pipeline_file, requests_put, bind.
    rewrite Hfile. simpl. rewrite Hc. simpl.
    by rewrite (utf8_decode_ascii _ (b64encode_ascii content)). }
  rewrite Heq.
  match goal with |- context [bind (http PUT ?u ?p) _ st] =>
    destruct (http_checked_spec PUT u p st) as (rs & Hf & _) end.
  eexists. split; [exact Hf|]. right.
  exists pt, (Byte.to_N <$> b64encode content), rs. split_and!; [done| |done].
  exists text, content. split_and!; [done..|].
  apply utf8_decode_ascii, b64encode_ascii.
Qed.

(** One turn of the loop of [set_repo_secrets]. *)
Lemma secret_step_calls name doc public_key secret_name secret_value st :
  ∃ calls,
    frame st
      ((encrypted_value <- encrypt public_key secret_value ;;
        key_id <- or_raise (KeyError (lit "key_id")) (key_id doc) ;;
        response <- requests_put
          (GITHUB_API_URL ++ lit "/repos/" ++ fmt ORG_NAME ++ lit "/"
           ++ name ++ lit "/actions/secrets/" ++ secret_name)
          [ (lit "encrypted_value", JStr encrypted_value);
            (lit "key_id", JStr key_id) ] ;;
        raise_for_status response) st).2 calls
    ∧ ((calls = []
        ∧ ¬ is_ok
            ((encrypted_value <- encrypt public_key secret_value ;;
              key_id <- or_raise (KeyError (lit "key_id")) (key_id doc) ;;
              response <- requests_put
                (GITHUB_API_URL ++ lit "/repos/" ++ fmt ORG_NAME ++ lit "/"
                 ++ name ++ lit "/actions/secrets/" ++ secret_name)
                [ (lit "encrypted_value", JStr encrypted_value);
                  (lit "key_id", JStr key_id) ] ;;
              raise_for_status response) st).1)
       ∨ ∃ ev kid rs,
           key_id doc = Some kid
           ∧ calls = [(set_secret_request name secret_name ev kid, rs)]).
Proof.
  pose proof (encrypt_frame public_key secret_value st) as Hq.
  destruct (encrypt public_key secret_value st) as [[ev|e] sE] eqn:He;
    simpl in Hq.
  2: { rewrite (bind_raise _ _ _ _ _ He). exists []. split; [done|].
       left. split; [done|]. by intros []. }
  rewrite (bind_ok _ _ _ _ _ He).
  destruct (key_id doc) as [kid|] eqn:Hkid.
  2: { exists []. unfold bind. simpl. split; [done|]. left.
       split; [done|by intros []]. }
  rewrite (bind_ok _ _ _ _ _ (eq_refl : or_raise _ (Some kid) sE = (Ok kid, sE))).
  match goal with |- context [bind (requests_put ?u ?p) _ sE] =>
    destruct (http_checked_spec PUT u (Some p) sE) as (rs & Hf & _) end.
  eexists. split; [exact (frame_trans _ _ _ _ _ Hq Hf)|].
  right. by exists ev, kid, rs.
Qed.

Lemma set_repo_secrets_prefix name st :
  ∃ calls kid ev1 ev2,
    frame st (set_repo_secrets name secrets st).2 calls
    ∧ calls.*1 `prefix_of`
        [ get_public_key_request name;
          set_secret_request name (lit "SECRET_KEY") ev1 kid;
          set_secret_request name (lit "GH_TOKEN") ev2 kid ].
Proof.
  destruct (get_public_key_spec name st) as (rs0 & Hf0 & _).
  unfold set_repo_secrets, secrets.
  destruct (get_public_key name st) as [[doc|e] s1] eqn:Hg; simpl in Hf0.
  2: { rewrite (bind_raise _ _ _ _ _ Hg).
       exists [(get_public_key_request name, rs0)], [], [], [].
       split; [done|]. apply prefix_cons, prefix_nil. }
  rewrite (bind_ok _ _ _ _ _ Hg).
  destruct (key doc) as [k|] eqn:Hk.
  2: { exists [(get_public_key_request name, rs0)], [], [], [].
       unfold bind. simpl. split; [done|]. apply prefix_cons, prefix_nil. }
  rewrite (bind_ok _ _ _ _ _ (eq_refl : or_raise _ (Some k) s1 = (Ok k, s1))).
  cbn [for_each].
  destruct (secret_step_calls name doc k (lit "SECRET_KEY")
              (Some (lit "example_secret_value")) s1) as (l1 & Hf1 & H1).
  match type of Hf1 with frame _ (?c _).2 _ =>
    destruct (c s1) as [[[]|e1] s2] eqn:Hs1 end; simpl in Hf1.
  2: { rewrite (bind_raise _ _ _ _ _ Hs1).
       destruct H1 as [[-> _]|(ev & kid & rs & _ & ->)].
       - exists [(get_public_key_request name, rs0)], [], [], [].
         split; [exact (frame_trans _ _ _ _ _ Hf0 Hf1)|].
         apply prefix_cons, prefix_nil.
       - eexists _, kid, ev, []. split; [exact (frame_trans _ _ _ _ _ Hf0 Hf1)|].
         apply prefix_cons, prefix_cons, prefix_nil. }
  rewrite (bind_ok _ _ _ _ _ Hs1).
  destruct H1 as [[_ Hno]|(ev1 & kid & rs1 & Hkid & ->)]; [by destruct Hno|].
  destruct (secret_step_calls name doc k (lit "GH_TOKEN") GITHUB_TOKEN s2)
    as (l2 & Hf2 & H2).
  match type of Hf2 with frame _ (?c _).2 _ =>
    destruct (c s2) as [[[]|e2] s3] eqn:Hs2 end; simpl in Hf2.
  - rewrite (bind_ok _ _ _ _ _ Hs2). simpl.
    destruct H2 as [[_ Hno]|(ev2 & kid' & rs2 & Hkid' & ->)];
      [by destruct Hno|].
    assert (kid' = kid) as -> by congruence.
    eexists _, kid, ev1, ev2. split.
    + exact (frame_trans _ _ _ _ _ Hf0 (frame_trans _ _ _ _ _ Hf1 Hf2)).
    + done.
  - rewrite (bind_raise _ _ _ _ _ Hs2).
    destruct H2 as [[-> _]|(ev2 & kid' & rs2 & Hkid' & ->)].
    + eexists _, kid, ev1, []. split.
      * exact (frame_trans _ _ _ _ _ Hf0 (frame_trans _ _ _ _ _ Hf1 Hf2)).
      * apply prefix_cons, prefix_cons, prefix_nil.
    + assert (kid' = kid) as -> by congruence.
      eexists _, kid, ev1, ev2. split.
      * exact (frame_trans _ _ _ _ _ Hf0 (frame_trans _ _ _ _ _ Hf1 Hf2)).
      * done.
Qed.

(** Push [fmap] through the constructors of a list. *)
Ltac push_fmap :=
  repeat first [rewrite fmap_cons | rewrite fmap_app | rewrite fmap_nil].

Lemma provision_prefix i d st :
  repos_data st !! i = Some d →
  ∃ calls enc kid ev1 ev2,
    frame st (provision i st).2 calls
    ∧ calls.*1 `prefix_of` plan_of d enc kid ev1 ev2.
Proof.
  intros Hd. unfold provision, plan_of, plan.
  destruct (repo_name d) as [name|] eqn:Hname.
  2: { exists [], [], [], [], []. unfold bind at 1.
       rewrite (getitem_eq _ _ _ _ _ Hd), Hname. simpl.
       split; [apply frame_refl|apply prefix_nil]. }
  rewrite (bind_ok _ _ _ _ _ (getitem_ok _ _ _ _ _ _ Hd Hname)). simpl.
  destruct (create_repo_spec name st) as (rs1 & Hf1 & _).
  destruct (create_repo name st) as [[[]|e] s1] eqn:H1; simpl in Hf1.
  2: { rewrite (bind_raise _ _ _ _ _ H1).
       exists [(create_repo_request name, rs1)], [], [], [], [].
       split; [done|]. apply prefix_cons, prefix_nil. }
  rewrite (bind_ok _ _ _ _ _ H1).
  assert (Hd1 : repos_data s1 !! i = Some d)
    by (by rewrite (frame_lookup _ _ _ _ Hf1)).
  destruct (repo_users d) as [users|] eqn:Husers.
  2: { exists [(create_repo_request name, rs1)], [], [], [], [].
       unfold bind at 1. rewrite (getitem_eq _ _ _ _ _ Hd1), Husers. simpl.
       split; [done|]. apply prefix_cons, prefix_nil. }
  rewrite (bind_ok _ _ _ _ _ (getitem_ok _ _ _ _ _ _ Hd1 Husers)). simpl.
  destruct (collaborators_prefix i d name users s1 Hd1 Hname)
    as (l2 & Hf2 & Hpre2 & Hall2).
  pose proof (frame_trans _ _ _ _ _ Hf1 Hf2) as Hf12.
  destruct (for_each users _ s1) as [[[]|e] s2] eqn:H2;
    simpl in Hf2, Hf12, Hall2.
  2: { rewrite (bind_raise _ _ _ _ _ H2). eexists _, [], [], [], [].
       split; [exact Hf12|]. push_fmap. simpl.
       apply prefix_cons. by apply prefix_app_r. }
  rewrite (bind_ok _ _ _ _ _ H2). specialize (Hall2 I).
  assert (Hd2 : repos_data s2 !! i = Some d)
    by (by rewrite (frame_lookup _ _ _ _ Hf2)).
  rewrite (bind_ok _ _ _ _ _ (getitem_ok _ _ _ _ _ _ Hd2 Hname)).
  rewrite (bind_ok _ _ _ _ _ (dict_get_ok _ _ _ _ Hd2)).
  destruct (create_pipeline_calls name (pipeline_type d) s2)
    as (l3 & Hf3 & H3).
  pose proof (frame_trans _ _ _ _ _ Hf12 Hf3) as Hf123.
  destruct (create_pipeline name (pipeline_type d) s2) as [[[]|e] s3] eqn:Hp;
    simpl in Hf3, Hf123, H3.
  2: { rewrite (bind_raise _ _ _ _ _ Hp).
       destruct H3 as [[-> _]|(pt & enc & rs3 & Hpt & _ & ->)].
       - eexists _, [], [], [], []. split; [exact Hf123|].
         rewrite ?app_nil_r. push_fmap. rewrite Hall2. simpl.
         rewrite ?app_nil_r. apply prefix_cons. by apply prefix_app_r.
       - eexists _, enc, [], [], []. split; [exact Hf123|].
         push_fmap. rewrite Hall2, Hpt. simpl.
         apply prefix_cons, prefix_app, prefix_cons, prefix_nil. }
  rewrite (bind_ok _ _ _ _ _ Hp).
  destruct H3 as [[_ Hno]|(pt & enc & rs3 & Hpt & _ & ->)]; [by destruct Hno|].
  assert (Hd3 : repos_data s3 !! i = Some d)
    by (by rewrite (frame_lookup _ _ _ _ Hf3)).
  rewrite (bind_ok _ _ _ _ _ (getitem_ok _ _ _ _ _ _ Hd3 Hname)).
  destruct (set_repo_secrets_prefix name s3) as (l4 & kid & ev1 & ev2 & Hf4 & Hpre4).
  eexists _, enc, kid, ev1, ev2.
  split; [exact (frame_trans _ _ _ _ _ Hf123 Hf4)|].
  push_fmap. rewrite Hall2, Hpt. simpl. rewrite <- app_assoc. simpl.
  apply prefix_cons, prefix_app, prefix_cons. exact Hpre4.
Qed.

End Calls.

(** ** From one entry to the run *)

Section Run.
Context `{E : Env}.

(** The calls of one turn of the loop are those of [provision], if any. *)
Lemma for_body_calls (Q : repo → list call → Prop) i d st :
  (∀ d, Q d []) →
  (∀ i d st calls, repos_data st !! i = Some d →
     frame st (provision i st).2 calls → Q d calls) →
  repos_data st !! i = Some d →
  ∃ calls,
    log (for_body i st).2 = log st ++ (tag i <$> calls) ∧ Q d calls.
Proof.
  intros Hnil Hprov Hd. unfold for_body, enter. unfold bind at 1.
  set (s0 := State (world st) (repos_data st) (repos_json st) (log st) i).
  assert (Hd0 : repos_data s0 !! i = Some d) by done.
  unfold bind at 1. rewrite (getitem_eq _ _ _ _ _ Hd0).
  destruct (status d) as [s|]; simpl.
  2: { exists []. split; [by rewrite app_nil_r|done]. }
  destruct (decide (s = lit "need-to-create"));
    [|exists []; split; [by rewrite app_nil_r|done]].
  destruct (clean_provision i s0) as (calls & Hf & _).
  exists calls. split; [|by eapply Hprov].
  unfold try_except_RequestException, try_body, bind, setitem_status.
  destruct Hf as (_ & _ & _ & Hlog).
  destruct (provision i s0) as [[[]|ex] s1]; simpl in *;
    [done|by destruct (is_request_exception ex)].
Qed.

(** A property of the calls of [provision] is one of the calls of every
    entry in every run. *)
Lemma run_calls (Q : repo → list call → Prop) w repos i d :
  (∀ d, Q d []) →
  (∀ i d st calls, repos_data st !! i = Some d →
     frame st (provision i st).2 calls → Q d calls) →
  repos !! i = Some d →
  Q d (calls_for i (log (run w repos).2)).
Proof.
  intros Hnil Hprov Hi.
  assert (Hloop : ∀ n k st r st',
    for_each (seq k n) for_body st = (r, st') →
    k + n ≤ length (repos_data st) →
    ∀ j d, k ≤ j → repos_data st !! j = Some d →
           calls_for j (log st) = [] →
           Q d (calls_for j (log st'))).
  { induction n as [|n IH]; intros k st r st'; simpl.
    - intros [= <- <-] _ j d' _ _ ->. apply Hnil.
    - intros Hrun Hlen j d' Hkj Hj Hempty.
      destruct (lookup_lt_is_Some_2 (repos_data st) k) as [dk Hk]; [lia|].
      unfold bind in Hrun.
      destruct (for_body_calls Q k dk st Hnil Hprov Hk) as (calls & Hlog & HQ).
      destruct (for_body k st) as [[[]|e] s1] eqn:Hb;
        destruct (for_body_spec _ _ _ _ _ Hk Hb)
          as (d1 & calls1 & _ & Hlen1 & Hk1 & Hother1 & _);
        simpl in Hlog.
      + destruct (decide (j = k)) as [->|Hne].
        * assert (d' = dk) as -> by congruence.
          destruct (loop_spec _ _ _ _ _ Hrun) as (_ & _ & _ & Hent); [lia|].
          destruct (Hent k d1 Hk1) as (? & l & _ & Hl & _ & Hsame).
          destruct Hsame as [_ ->]; [lia|].
          rewrite Hl, Hlog, calls_for_app, calls_for_tag, Hempty.
          rewrite decide_True, app_nil_r by done. done.
        * eapply (IH (S k) s1 r st' Hrun); [lia|lia| |].
          -- by rewrite Hother1.
          -- rewrite Hlog, calls_for_app, calls_for_tag, Hempty.
             by rewrite decide_False by done.
      + injection Hrun as <- <-.
        rewrite Hlog, calls_for_app, calls_for_tag, Hempty.
        destruct (decide (k = j)) as [->|Hne]; simpl.
        * assert (d' = dk) as -> by congruence. done.
        * apply Hnil. }
  unfold run, main, initial, json_load. unfold bind at 1. simpl.
  set (s0 := State w repos repos [] 0). unfold bind, json_dump.
  destruct (for_each _ for_body s0) as [[[]|e] s1] eqn:Hl; simpl;
    eapply (Hloop _ _ _ _ _ Hl); simpl; done || lia.
Qed.

(** X3.  In every run, the calls made for an entry are an initial part of
    its plan: the create call, then one collaborator call per user in the
    order of the list, then the upload, the public key and the two
    secrets.  No call is ever made out of that order, and never more than
    the number of users plus five. *)
Theorem calls_follow_the_plan (w : World) (repos : list repo) (i : nat)
    (d : repo) :
  repos !! i = Some d →
  (∃ enc kid ev1 ev2,
     (calls_for i (log (run w repos).2)).*1
       `prefix_of` plan_of d enc kid ev1 ev2)
  ∧ length (calls_for i (log (run w repos).2))
    ≤ length (default [] (repo_users d)) + 5.
Proof.
  intros Hi.
  assert (H : ∃ enc kid ev1 ev2,
     (calls_for i (log (run w repos).2)).*1
       `prefix_of` plan_of d enc kid ev1 ev2).
  { apply (run_calls (λ d calls, ∃ enc kid ev1 ev2,
             calls.*1 `prefix_of` plan_of d enc kid ev1 ev2)); [| |done].
    - intros d0. exists [], [], [], []. apply prefix_nil.
    - intros j d0 st calls Hd Hf.
      destruct (provision_prefix j d0 st Hd)
        as (calls' & enc & kid & ev1 & ev2 & Hf' & Hpre).
      rewrite (frame_unique _ _ _ _ Hf Hf'). by exists enc, kid, ev1, ev2. }
  split; [exact H|].
  destruct H as (enc & kid & ev1 & ev2 & Hpre).
  apply prefix_length in Hpre. rewrite length_fmap in Hpre.
  unfold plan_of, plan in Hpre. simpl in Hpre.
  rewrite length_app, length_fmap in Hpre. simpl in Hpre. lia.
Qed.

(** ** The log, in the order of the entries *)

Lemma tagged_sorted k (calls : list call) :
  StronglySorted (λ a b, entry_of a ≤ entry_of b) (tag k <$> calls).
Proof.
  induction calls as [|[??] calls IH]; [constructor|].
  rewrite fmap_cons. constructor; [done|].
  rewrite Forall_fmap, Forall_forall. intros [??] _.
  unfold entry_of, tag. simpl. lia.
Qed.

Lemma loop_log n : ∀ k st r st',
  for_each (seq k n) for_body st = (r, st') →
  k + n ≤ length (repos_data st) →
  ∃ l, log st' = log st ++ l
       ∧ Forall (λ ev, k ≤ entry_of ev < k + n) l
       ∧ StronglySorted (λ a b, entry_of a ≤ entry_of b) l.
Proof.
  induction n as [|n IH]; intros k st r st'; simpl.
  - intros [= <- <-] _. exists []. rewrite app_nil_r.
    split_and!; [done|done|constructor].
  - intros Hrun Hlen.
    destruct (lookup_lt_is_Some_2 (repos_data st) k) as [dk Hk]; [lia|].
    unfold bind in Hrun.
    destruct (for_body k st) as [[[]|e] s1] eqn:Hb;
      destruct (for_body_spec _ _ _ _ _ Hk Hb)
        as (d1 & calls1 & _ & Hlen1 & _ & _ & Hlog1 & _).
    + destruct (IH (S k) s1 r st' Hrun) as (l & Hl & Hin & Hsorted); [lia|].
      exists ((tag k <$> calls1) ++ l). split_and!.
      * by rewrite Hl, Hlog1, app_assoc.
      * apply Forall_app. split.
        -- rewrite Forall_fmap, Forall_forall. intros [??] _.
           unfold entry_of, tag. simpl. lia.
        -- eapply Forall_impl; [exact Hin|]. simpl. lia.
      * apply StronglySorted_app_2; [|apply tagged_sorted|done].
        intros x1 x2 [[??] [-> _]]%list_elem_of_fmap Hx2.
        rewrite Forall_forall in Hin. specialize (Hin _ Hx2).
        unfold entry_of, tag in *. simpl in *. lia.
    + injection Hrun as <- <-. exists (tag k <$> calls1).
      split_and!; [done| |].
      * rewrite Forall_fmap, Forall_forall. intros [??] _.
        unfold entry_of, tag. simpl. lia.
      * apply tagged_sorted.
Qed.

Lemma run_log w repos :
  Forall (λ ev, entry_of ev < length repos) (log (run w repos).2)
  ∧ StronglySorted (λ a b, entry_of a ≤ entry_of b) (log (run w repos).2).
Proof.
  unfold run, main, initial, json_load. unfold bind at 1 3. simpl.
  set (s0 := State w repos repos [] 0). unfold bind, json_dump.
  destruct (for_each _ for_body s0) as [[[]|e] s1] eqn:Hl;
    destruct (loop_log _ _ _ _ _ Hl) as (l & Hlog & Hin & Hs);
    try (simpl; lia); simpl in *; subst l; split; try done;
    (eapply Forall_impl; [exact Hin|]; simpl; lia).
Qed.

Lemma event_in_calls_for (ev : event) (l : list event) :
  ev ∈ l → (request_of ev, ev.2) ∈ calls_for (entry_of ev) l.
Proof.
  intros Hin. unfold calls_for. apply list_elem_of_omap.
  exists ev. split; [done|]. destruct ev as [[j rq] rs].
  unfold entry_of, request_of. simpl. by rewrite decide_True.
Qed.

Lemma plan_requests name users pt enc kid ev1 ev2 rq :
  rq ∈ plan name users pt enc kid ev1 ev2 →
  headers rq = HEADERS ∧ GITHUB_API_URL `prefix_of` url rq.
Proof.
  unfold plan. rewrite elem_of_cons, elem_of_app, list_elem_of_fmap.
  rewrite !elem_of_cons, elem_of_nil.
  intros [->|[(u & -> & _)|[->|[->|[->|[->|[]]]]]]];
    (split; [done|by eexists]).
Qed.

(** X13.  Every request a run hands to the HTTP library carries the two
    headers of [HEADERS], the token among them, and goes to a URL under
    [GITHUB_API_URL]. *)
Theorem every_request_is_authorized (w : World) (repos : list repo) :
  Forall (λ ev, headers (request_of ev) = HEADERS
                ∧ GITHUB_API_URL `prefix_of` url (request_of ev))
    (log (run w repos).2).
Proof.
  apply Forall_forall. intros ev Hev.
  destruct (run_log w repos) as [Hin _].
  rewrite Forall_forall in Hin. specialize (Hin ev Hev).
  destruct (lookup_lt_is_Some_2 repos (entry_of ev)) as [d Hd]; [done|].
  pose proof (run_calls
    (λ _ calls, Forall (λ c : call,
        headers c.1 = HEADERS ∧ GITHUB_API_URL `prefix_of` url c.1) calls)
    w repos (entry_of ev) d) as H.
  rewrite Forall_forall in H.
  apply (H (λ _, Forall_nil_2 _)) with (x := (request_of ev, ev.2));
    [|done|by apply event_in_calls_for].
  intros j d0 st calls Hd0 Hf.
  destruct (provision_prefix j d0 st Hd0)
    as (calls' & enc & kid & ev1 & ev2 & Hf' & Hpre).
  rewrite (frame_unique _ _ _ _ Hf Hf'). apply Forall_forall.
  intros c Hc. eapply plan_requests, elem_of_prefix; [|exact Hpre].
  apply list_elem_of_fmap. by exists c.
Qed.

(** X6.  An entry whose status is anything but exactly "need-to-create"
    (another word, another spelling, or no status at all) is never
    provisioned and never changed: no call is made for it and it is the
    same in memory and in the file after the run. *)
Theorem other_status_is_left_alone (w : World) (repos : list repo)
    (i : nat) (d : repo) :
  repos !! i = Some d →
  status d ≠ Some (lit "need-to-create") →
  calls_for i (log (run w repos).2) = []
  ∧ repos_data (run w repos).2 !! i = Some d
  ∧ repos_json (run w repos).2 !! i = Some d.
Proof.
  intros Hi Hs. destruct (run w repos) as [r st'] eqn:Hrun. simpl.
  destruct (run_spec _ _ _ _ Hrun) as (_ & Hent & Hfile).
  destruct (Hent i d Hi) as (d' & Hd' & Hout).
  unfold outcome in Hout. rewrite decide_False in Hout by done.
  destruct Hout as [-> ->]. split_and!; [done..|].
  destruct r; [by rewrite Hfile|]. by destruct Hfile as [-> _].
Qed.

(** ** When the run raises *)

Lemma for_body_raise i d st e st1 :
  repos_data st !! i = Some d → for_body i st = (Raise e, st1) →
  repos_data st1 = repos_data st
  ∧ (status d = None ∨ status d = Some (lit "need-to-create"))
  ∧ current st1 = i.
Proof.
  intros Hd. unfold for_body, enter. unfold bind at 1.
  set (s0 := State (world st) (repos_data st) (repos_json st) (log st) i).
  assert (Hd0 : repos_data s0 !! i = Some d) by done.
  unfold bind at 1. rewrite (getitem_eq _ _ _ _ _ Hd0).
  destruct (status d) as [s|]; simpl; [|intros [= <- <-]; by auto].
  destruct (decide (s = lit "need-to-create")) as [->|]; [|done].
  unfold try_except_RequestException.
  destruct (try_body i s0) as [[[]|ex] s1'] eqn:Ht; [done|].
  apply try_body_raise in Ht.
  destruct (clean_elim _ _ _ _ (clean_provision i) Ht) as (? & Hf & _).
  destruct (is_request_exception ex); [done|]. intros [= <- <-].
  destruct Hf as (Hdata & _ & Hcur & _). split_and!; [done|by right|done].
Qed.

(** A loop that raises did so at the entry the state is left at: the
    entries before it were gone through, and it is the turn of that entry
    which raised. *)
Lemma loop_raise n : ∀ k st e st',
  for_each (seq k n) for_body st = (Raise e, st') →
  k + n ≤ length (repos_data st) →
  ∃ d st1,
    k ≤ current st' < k + n
    ∧ for_each (seq k (current st' - k)) for_body st = (Ok tt, st1)
    ∧ for_body (current st') st1 = (Raise e, st')
    ∧ repos_data st !! current st' = Some d
    ∧ (status d = None ∨ status d = Some (lit "need-to-create"))
    ∧ repos_data st' !! current st' = Some d
    ∧ ∀ j, current st' < j →
        repos_data st' !! j = repos_data st !! j
        ∧ calls_for j (log st') = calls_for j (log st).
Proof.
  induction n as [|n IH]; intros k st e st'; simpl; [done|].
  intros Hrun Hlen.
  destruct (lookup_lt_is_Some_2 (repos_data st) k) as [dk Hk]; [lia|].
  unfold bind in Hrun.
  destruct (for_body k st) as [[[]|ex] s1] eqn:Hb;
    destruct (for_body_spec _ _ _ _ _ Hk Hb)
      as (d1 & calls1 & _ & Hlen1 & _ & Hother1 & Hlog1 & _).
  - destruct (IH (S k) s1 e st' Hrun)
      as (d & s2 & Hi & Hpre & Hat & Hd & Hs & Hd' & Hafter); [lia|].
    exists d, s2. split; [lia|]. split.
    { replace (current st' - k) with (S (current st' - S k)) by lia.
      simpl. unfold bind. by rewrite Hb. }
    split; [done|]. split; [by rewrite <- Hother1 by lia|].
    split; [done|]. split; [done|].
    intros j Hj. destruct (Hafter j Hj) as [-> ->].
    rewrite Hother1 by lia.
    rewrite Hlog1, calls_for_app, calls_for_tag.
    by rewrite decide_False, app_nil_r by lia.
  - injection Hrun as <- <-.
    destruct (for_body_raise _ _ _ _ _ Hk Hb) as (Hdata & Hs & Hcur).
    rewrite Hcur. exists dk, st. split; [lia|]. split.
    { by replace (k - k) with 0 by lia. }
    split; [done|]. split; [done|]. split; [done|].
    split; [by rewrite Hdata|].
    intros j Hj. rewrite Hdata. split; [done|].
    rewrite Hlog1, calls_for_app, calls_for_tag.
    by rewrite decide_False, app_nil_r by lia.
Qed.

(** X5.  When a run raises, the entry the loop was at (the state keeps
    its index) is the one that raised: the loop went through the entries
    before it, and the turn of this one raised the exception of the run.
    That entry has no status or needs creating and is as it was read; and
    no entry after it was touched: no call was made for any of them and
    they are as they were read. *)
Theorem nothing_after_the_entry_that_raised (w : World)
    (repos : list repo) (e : exn) (st' : state) :
  run w repos = (Raise e, st') →
  ∃ d st,
    repos !! current st' = Some d
    ∧ for_each (seq 0 (current st')) for_body (State w repos repos [] 0)
      = (Ok tt, st)
    ∧ for_body (current st') st = (Raise e, st')
    ∧ (status d = None ∨ status d = Some (lit "need-to-create"))
    ∧ repos_data st' !! current st' = Some d
    ∧ ∀ j d', current st' < j → repos !! j = Some d' →
        calls_for j (log st') = [] ∧ repos_data st' !! j = Some d'.
Proof.
  unfold run, main, initial, json_load. unfold bind at 1. simpl.
  set (s0 := State w repos repos [] 0). unfold bind, json_dump.
  destruct (for_each _ for_body s0) as [[[]|ex] s1] eqn:Hl; [done|].
  intros [= <- <-].
  destruct (loop_raise _ _ _ _ _ Hl)
    as (d & st & _ & Hpre & Hat & Hd & Hs & Hd' & Hafter); [simpl; lia|].
  rewrite Nat.sub_0_r in Hpre.
  exists d, st. split_and!; [done..|].
  intros j d' Hj Hjd. destruct (Hafter j Hj) as [-> ->]. by split.
Qed.

(** ** When nothing fails *)







(** ** Failures of the remote never end the run *)














(** ** A token that cannot go into a header *)

Lemma before_final_lf_spec s :
  no_line_break (before_final_lf s) = true →
  no_line_break s = true ∨ ∃ s', s = s' ++ [10%N].
Proof.
  induction s as [|c r IH]; [by left|].
  cbn [before_final_lf]. destruct r as [|n r'].
  - destruct (N.eqb_spec c 10) as [->|_]; [right; by exists []|by left].
  - rewrite no_line_break_cons.
    intros [Hc Hr]%andb_true_iff. destruct (IH Hr) as [Hlb|[s' Hs']].
    + left. by rewrite no_line_break_cons, Hc, Hlb.
    + right. exists (c :: s'). by rewrite Hs'.
Qed.

Lemma illegal_header_value_final_lf s :
  illegal_header_value (s ++ [10%N]) = true.
Proof.
  induction s as [|c r IH]; [done|].
  change ((c :: r) ++ [10%N]) with (c :: (r ++ [10%N])).
  cbn [illegal_header_value]. rewrite IH. apply orb_true_r.
Qed.

(** A value with a line break, or one without latin-1 encoding, fails one
    of the two checks. *)
Lemma header_value_fails v :
  latin1 v && no_line_break v = false →
  valid_header_value v = false
  ∨ negb (latin1 v) = true
  ∨ illegal_header_value v = true.
Proof.
  intros H. destruct (latin1 v); [|by auto]. simpl in H.
  destruct (valid_header_value v) eqn:Hvalid; [|by auto]. right. right.
  unfold valid_header_value in Hvalid.
  assert (Hb : no_line_break (before_final_lf v) = true).
  { destruct (before_final_lf v) as [|c r]; [done|].
    apply andb_true_iff in Hvalid as [Hsp Hr].
    rewrite no_line_break_cons, Hr, andb_true_r.
    destruct (is_line_break c) eqn:Hc; [|done]. exfalso.
    unfold is_line_break in Hc.
    destruct (N.eqb_spec c 10) as [->|_]; [done|].
    destruct (N.eqb_spec c 13) as [->|_]; done. }
  destruct (before_final_lf_spec _ Hb) as [Hlb|[s' ->]]; [congruence|].
  apply illegal_header_value_final_lf.
Qed.

(** When the token is not fit for a header, the headers of the script do
    not pass: every call raises. *)
Lemma unsendable_call token m url payload w :
  GITHUB_TOKEN = Some token → header_safe token = false →
  ∃ e, (requests_request (Request m url HEADERS payload) w).1 = NoResponse e.
Proof.
  intros Htok Hsafe. unfold requests_request. cbn [headers].
  assert (Hh : HEADERS
    = [ (lit "Authorization", lit "token " ++ token);
        (lit "Accept", lit "application/vnd.github.v3+json") ]).
  { unfold HEADERS, fmt. by rewrite Htok. }
  rewrite Hh. unfold check_header_validity.
  cbn [forallb putheaders snd].
  destruct (header_value_fails (lit "token " ++ token)) as [Hv|[Hl|Hi]].
  { rewrite latin1_app, no_line_break_app.
    replace (latin1 (lit "token ")) with true by (by vm_compute).
    replace (no_line_break (lit "token ")) with true by (by vm_compute).
    simpl. unfold header_safe in Hsafe.
    destruct (latin1 token); [|done]. simpl in *. by rewrite Hsafe. }
  - rewrite Hv. by eexists.
  - destruct (valid_header_value _ && _); [|by eexists].
    destruct (send _ w) as [[[code body]|] w']; [|by eexists].
    rewrite Hl. by eexists.
  - destruct (valid_header_value _ && _); [|by eexists].
    destruct (send _ w) as [[[code body]|] w']; [|by eexists].
    rewrite Hi. destruct (negb _); by eexists.
Qed.

Lemma unsendable_http token m url payload st :
  GITHUB_TOKEN = Some token → header_safe token = false →
  ∃ e st',
    bind (http m url payload) raise_for_status st = (Raise e, st')
    ∧ frame st st' [(Request m url HEADERS payload, NoResponse e)].
Proof.
  intros Htok Hsafe.
  destruct (unsendable_call token m url payload (world st) Htok Hsafe)
    as [e He].
  unfold bind, http.
  destruct (requests_request _ (world st)) as [rs w']. simpl in He. subst rs.
  by eexists e, _.
Qed.

(** All that [provision] does then is the create call, which raises. *)
Lemma unsendable_provision token i d st calls :
  GITHUB_TOKEN = Some token → header_safe token = false →
  repos_data st !! i = Some d →
  frame st (provision i st).2 calls →
  calls = [] ∨ ∃ rq e, calls = [(rq, NoResponse e)].
Proof.
  intros Htok Hsafe Hd. unfold provision. unfold bind at 1.
  rewrite (getitem_eq _ _ _ _ _ Hd).
  destruct (repo_name d) as [name|]; simpl.
  - destruct (unsendable_http token POST
      (GITHUB_API_URL ++ lit "/orgs/" ++ fmt ORG_NAME ++ lit "/repos")
      (Some [ (lit "name", JStr name); (lit "private", JBool true) ])
      st Htok Hsafe) as (e & s1 & Hc & Hf1).
    change (bind (http POST _ _) raise_for_status st)
      with (create_repo name st) in Hc.
    rewrite (bind_raise _ _ _ _ _ Hc). simpl. intros Hf.
    right. eexists _, e. exact (frame_unique _ _ _ _ Hf Hf1).
  - intros Hf. left. exact (frame_unique _ _ _ _ Hf (frame_refl st)).
Qed.

(** X16.  A token that is not fit for a header (a code point without
    latin-1 encoding, or a line break) makes every call of the HTTP library
    raise, so that a run provisions nothing: at most one call is made for
    an entry, no call gets a response, and the list is the one read, in
    memory and in the file, whatever the remote would have answered. *)
Theorem unsendable_token_provisions_nothing (w : World)
    (repos : list repo) (token : str) :
  GITHUB_TOKEN = Some token → header_safe token = false →
  repos_data (run w repos).2 = repos
  ∧ repos_json (run w repos).2 = repos
  ∧ ∀ i d, repos !! i = Some d →
      calls_for i (log (run w repos).2) = []
      ∨ ∃ rq e, calls_for i (log (run w repos).2) = [(rq, NoResponse e)].
Proof.
  intros Htok Hsafe.
  assert (Hcalls : ∀ i d, repos !! i = Some d →
      calls_for i (log (run w repos).2) = []
      ∨ ∃ rq e, calls_for i (log (run w repos).2) = [(rq, NoResponse e)]).
  { intros i d Hi.
    apply (run_calls (λ _ calls,
             calls = [] ∨ ∃ rq e, calls = [(rq, NoResponse e)])
             w repos i d); [by left| |done].
    intros j d0 st calls Hd0 Hf.
    by eapply unsendable_provision. }
  destruct (run w repos) as [r st'] eqn:Hrun. simpl in *.
  destruct (run_spec _ _ _ _ Hrun) as (Hlen & Hent & Hfile).
  assert (Hdata : repos_data st' = repos).
  { apply list_eq_same_length with (length repos); [done..|].
    intros i d' d _ Hd' Hi. destruct (Hent i d Hi) as (d'' & Hd'' & Hout).
    assert (d'' = d) as ->; [|congruence].
    unfold outcome in Hout.
    destruct (decide _); [|by destruct Hout].
    destruct Hout as [[_ Hc]|[-> _]]; [exfalso|done].
    destruct Hc as (? & ? & ? & ? & ? & ? & ? & _ & _ & _ & _ & Hshape & Hok).
    destruct (Hcalls i d Hi) as [Hnil|(rq & e0 & Hone)].
    - by rewrite Hnil in Hshape.
    - rewrite Hone, Forall_singleton in Hok. by unfold succeeded in Hok. }
  split_and!; [done| |done].
  destruct r; [by rewrite Hfile|by destruct Hfile].
Qed.

(** X14.  In every run, no call is made for an entry after one of its
    calls failed: a failed call is the last one of its entry. *)
Theorem failed_call_is_the_last (w : World) (repos : list repo) (i : nat)
    (d : repo) (pre post : list call) (c : call) :
  repos !! i = Some d →
  calls_for i (log (run w repos).2) = pre ++ c :: post →
  failed c.2 = true →
  post = [].
Proof.
  intros Hi Hcalls Hfail. destruct (run w repos) as [r st'] eqn:Hrun.
  simpl in Hcalls.
  destruct (run_spec _ _ _ _ Hrun) as (_ & Hent & _).
  destruct (Hent i d Hi) as (d' & _ & Hout). unfold outcome in Hout.
  rewrite Hcalls in Hout. destruct (decide _).
  - destruct Hout as [[_ Hc]|[_ (Hlast & _)]].
    + destruct Hc as (? & ? & ? & ? & ? & ? & ? & _ & _ & _ & _ & _ & Hok).
      apply Forall_app in Hok as [_ Hok].
      apply Forall_cons in Hok as [Hok _]. unfold succeeded in Hok.
      congruence.
    + by eapply fail_last_failed.
  - destruct Hout as [_ Hnil]. by destruct pre.
Qed.

End Run.

End Coverage.

(* ===================================================================== *)
(** * More concrete runs *)
(* ===================================================================== *)

Module CoverageRuns.
Import Text Py Script TextFacts ScriptFacts Demo Runs Coverage.

Lemma key43_decodes : decodes_to key43 (replicate 32 x00).
Proof. eexists. split_and!; by vm_compute. Qed.



Lemma ok_without_token_succeeds :
  @remote_succeeds (env_without_token ok_server).
Proof.
  intros rq w. exists 201%N, (Ok key_doc). split_and!; [done..|].
  intros _. exists key43, (lit "568250167242549743"), (replicate 32 x00).
  split; [done|apply key43_decodes].
Qed.





Lemma upload_carries_the_template_witness :
  let st := State (0 : @World (env ok_server)) [] [] [] 0 in
  @files (env ok_server) (lit "deploy" ++ lit ".yml") = Some (lit "name: CI")
  ∧ utf8_encode (lit "name: CI") = Some (list_byte_of_string "name: CI")
  ∧ ∃ encoded rs,
      frame st
        (@create_pipeline (env ok_server) (lit "svc-a")
           (Some (lit "deploy")) st).2
        [(@create_pipeline_request (env ok_server) (lit "svc-a")
            (lit "deploy") encoded, rs)]
      ∧ (@create_pipeline (env ok_server) (lit "svc-a")
           (Some (lit "deploy")) st).1 = checked rs
      ∧ (octets ← utf8_encode encoded ≫= b64decode; utf8_decode octets)
        = Some (lit "name: CI").
Proof.
  intros st.
  assert (H1 : @files (env ok_server) (lit "deploy" ++ lit ".yml")
               = Some (lit "name: CI")) by (vm_compute; reflexivity).
  assert (H2 : utf8_encode (lit "name: CI")
               = Some (list_byte_of_string "name: CI"))
    by (vm_compute; reflexivity).
  split; [exact H1|]. split; [exact H2|].
  exact (@upload_carries_the_template (env ok_server) (lit "svc-a")
           (lit "deploy") (lit "name: CI") (list_byte_of_string "name: CI")
           st H1 H2).
Defined.

Lemma calls_follow_the_plan_witness :
  [svc_a] !! 0 = Some svc_a
  ∧ (∃ enc kid ev1 ev2,
       (calls_for 0 (log (@run (env third_fails_server) 0 [svc_a]).2)).*1
         `prefix_of` @plan_of (env third_fails_server) svc_a enc kid ev1 ev2)
  ∧ length (calls_for 0 (log (@run (env third_fails_server) 0 [svc_a]).2))
    ≤ length (default [] (repo_users svc_a)) + 5.
Proof.
  split; [reflexivity|].
  apply (@calls_follow_the_plan (env third_fails_server) 0 [svc_a] 0 svc_a).
  reflexivity.
Defined.

Lemma nothing_after_the_entry_that_raised_witness :
  let repos := [svc_a; svc_b; svc_a] in
  let st' := (@run (env ok_server) 0 repos).2 in
  @run (env ok_server) 0 repos = (Raise FileNotFoundError, st')
  ∧ current st' = 1
  ∧ ∃ d st,
      repos !! current st' = Some d
      ∧ for_each (seq 0 (current st')) for_body
          (State (0 : @World (env ok_server)) repos repos [] 0)
        = (Ok tt, st)
      ∧ for_body (current st') st = (Raise FileNotFoundError, st')
      ∧ (status d = None ∨ status d = Some (lit "need-to-create"))
      ∧ repos_data st' !! current st' = Some d
      ∧ ∀ j d', current st' < j → repos !! j = Some d' →
          calls_for j (log st') = [] ∧ repos_data st' !! j = Some d'.
Proof.
  intros repos st'.
  assert (H : @run (env ok_server) 0 repos = (Raise FileNotFoundError, st'))
    by (vm_compute; reflexivity).
  split; [exact H|]. split; [vm_compute; reflexivity|].
  exact (@nothing_after_the_entry_that_raised (env ok_server) 0 repos
           FileNotFoundError st' H).
Defined.

Lemma other_status_is_left_alone_witness :
  [svc_retired; svc_a] !! 0 = Some svc_retired
  ∧ status svc_retired ≠ Some (lit "need-to-create")
  ∧ calls_for 0 (log (@run (env ok_server) 0 [svc_retired; svc_a]).2) = []
  ∧ repos_data (@run (env ok_server) 0 [svc_retired; svc_a]).2 !! 0
    = Some svc_retired
  ∧ repos_json (@run (env ok_server) 0 [svc_retired; svc_a]).2 !! 0
    = Some svc_retired.
Proof.
  assert (H : status svc_retired ≠ Some (lit "need-to-create"))
    by (vm_compute; discriminate).
  split; [reflexivity|]. split; [exact H|].
  exact (@other_status_is_left_alone (env ok_server) 0 [svc_retired; svc_a]
           0 svc_retired eq_refl H).
Defined.




Lemma unset_token_stops_after_first_secret_witness :
  let st := State (0 : @World (env_without_token ok_server)) [] [] [] 0 in
  @remote_succeeds (env_without_token ok_server)
  ∧ @GITHUB_TOKEN (env_without_token ok_server) = None
  ∧ ∃ calls kid ev1 st',
      @set_repo_secrets (env_without_token ok_server) (lit "svc-a")
        (@secrets (env_without_token ok_server)) st
      = (Raise AttributeError, st')
      ∧ frame st st' calls
      ∧ calls.*1
        = [ @get_public_key_request (env_without_token ok_server)
              (lit "svc-a");
            @set_secret_request (env_without_token ok_server)
              (lit "svc-a") (lit "SECRET_KEY") ev1 kid ].
Proof.
  intros st. split; [exact ok_without_token_succeeds|].
  split; [reflexivity|].
  exact (@unset_token_stops_after_first_secret (env_without_token ok_server)
           (lit "svc-a") st ok_without_token_succeeds eq_refl).
Defined.

Lemma encrypt_rejects_malformed_key_witness :
  let st := State (0 : @World (env ok_server)) [] [] [] 0 in
  utf8_encode (encrypt_pad (lit "AAAA")) = Some (list_byte_of_string "AAAA")
  ∧ b64decode (list_byte_of_string "AAAA") = Some [x00; x00; x00]
  ∧ length [x00; x00; x00] ≠ 32
  ∧ @encrypt (env ok_server) (lit "AAAA") None st
    = (Raise NaclValueError, st).
Proof.
  intros st.
  assert (H1 : utf8_encode (encrypt_pad (lit "AAAA"))
               = Some (list_byte_of_string "AAAA"))
    by (vm_compute; reflexivity).
  assert (H2 : b64decode (list_byte_of_string "AAAA")
               = Some [x00; x00; x00]) by (vm_compute; reflexivity).
  assert (H3 : length [x00; x00; x00] ≠ 32) by (simpl; lia).
  split; [exact H1|]. split; [exact H2|]. split; [exact H3|].
  exact (proj2 (@encrypt_rejects_malformed_key (env ok_server) (lit "AAAA")
                  (list_byte_of_string "AAAA") None st H1)
           [x00; x00; x00] H2 H3).
Defined.

Lemma failed_call_is_the_last_witness :
  let pre : list call :=
    [ (@create_repo_request (env third_fails_server) (lit "svc-a"),
       Response 201 (Ok key_doc));
      (@add_collaborator_request (env third_fails_server) (lit "svc-a")
         (lit "alice"), Response 201 (Ok key_doc)) ] in
  let c : call :=
    (@create_pipeline_request (env third_fails_server) (lit "svc-a")
       (lit "deploy") (lit "bmFtZTogQ0k="), Response 500 (Ok key_doc)) in
  [svc_a] !! 0 = Some svc_a
  ∧ calls_for 0 (log (@run (env third_fails_server) 0 [svc_a]).2)
    = pre ++ c :: []
  ∧ failed c.2 = true
  ∧ @nil call = [].
Proof.
  intros pre c.
  assert (H2 : calls_for 0 (log (@run (env third_fails_server) 0 [svc_a]).2)
               = pre ++ c :: []) by (vm_compute; reflexivity).
  split; [reflexivity|]. split; [exact H2|]. split; [reflexivity|].
  exact (@failed_call_is_the_last (env third_fails_server) 0 [svc_a] 0 svc_a
           pre [] c eq_refl H2 eq_refl).
Defined.


Lemma unsendable_token_provisions_nothing_witness :
  let E := env_with_token euro_token ok_server in
  @GITHUB_TOKEN E = Some euro_token
  ∧ header_safe euro_token = false
  ∧ repos_data (@run E 0 [svc_a; svc_a]).2 = [svc_a; svc_a]
  ∧ repos_json (@run E 0 [svc_a; svc_a]).2 = [svc_a; svc_a]
  ∧ ∀ i d, [svc_a; svc_a] !! i = Some d →
      calls_for i (log (@run E 0 [svc_a; svc_a]).2) = []
      ∨ ∃ rq e, calls_for i (log (@run E 0 [svc_a; svc_a]).2)
                = [(rq, NoResponse e)].
Proof.
  intros E.
  assert (H2 : header_safe euro_token = false) by (vm_compute; reflexivity).
  split; [reflexivity|]. split; [exact H2|].
  exact (@unsendable_token_provisions_nothing E 0 [svc_a; svc_a] euro_token
           eq_refl H2).
Defined.

(** What a token that is not fit for a header does to a run.  With the
    euro sign, the first call connects and then raises [UnicodeEncodeError],
    which ends the run; when the transport does not connect, every entry
    fails with [ConnectionError] and the run returns.  A final line feed
    ends the run with [ValueError].  A line feed inside the token is
    refused before the transport is tried (the world does not move), with
    an exception of the HTTP library, so the run returns; the entries are
    as they were. *)
Example unsendable_token_runs :
  (@run (env_with_token euro_token ok_server) 0 [svc_a; svc_a]).1
    = Raise UnicodeEncodeError
  ∧ log (@run (env_with_token euro_token ok_server) 0 [svc_a; svc_a]).2
    = [ (0, @create_repo_request (env_with_token euro_token ok_server)
              (lit "svc-a"), NoResponse UnicodeEncodeError) ]
  ∧ (@run (env_with_token euro_token unreachable_server) 0
       [svc_a; svc_a]).1 = Ok tt
  ∧ (log (@run (env_with_token euro_token unreachable_server) 0
            [svc_a; svc_a]).2).*2
    = [NoResponse ConnectionError; NoResponse ConnectionError]
  ∧ (@run (env_with_token newline_token ok_server) 0 [svc_a; svc_a]).1
    = Raise ValueError
  ∧ (@run (env_with_token two_line_token ok_server) 0 [svc_a; svc_a]).1
    = Ok tt
  ∧ (log (@run (env_with_token two_line_token ok_server) 0
            [svc_a; svc_a]).2).*2
    = [NoResponse InvalidHeader; NoResponse InvalidHeader]
  ∧ world (@run (env_with_token two_line_token ok_server) 0
             [svc_a; svc_a]).2 = 0
  ∧ repos_json (@run (env_with_token two_line_token ok_server) 0
                  [svc_a; svc_a]).2 = [svc_a; svc_a].
Proof. split_and!; by vm_compute. Qed.

(** The run against [third_fails_server]: the upload of the first entry
    fails, the entry stays "need-to-create", the second entry is
    provisioned in full. *)
Example third_fails_run :
  (@run (env third_fails_server) 0 [svc_a; svc_a]).1 = Ok tt
  ∧ repos_json (@run (env third_fails_server) 0 [svc_a; svc_a]).2
    = [svc_a; set_status (lit "created") svc_a]
  ∧ length (calls_for 0 (log (@run (env third_fails_server) 0
                                 [svc_a; svc_a]).2)) = 3
  ∧ length (calls_for 1 (log (@run (env third_fails_server) 0
                                 [svc_a; svc_a]).2)) = 6.
Proof. split_and!; by vm_compute. Qed.

End CoverageRuns.
